(** * monitor_dc_temp: the SLO tracker, the polling loop and the permit pool

    A shallow embedding of [src/monitor_dc_temp.py].

    Conventions of the embedding:
    - Python [int] values ([self.count], [self.slo], [self.semaphores]) are
      [Z].  A temperature or a [time.time()] reading is the rational [Q] it
      denotes, comparisons between numbers are exact as in Python, and the
      difference of two clock readings is taken exactly (two readings of
      [time.time()] are multiples of one power of two, so that binary64
      subtracts them without rounding).
    - The density floor [(semaphores * (slo / 10)) - 1] is computed as
      Python computes it, in binary64 with rounding to nearest even
      ([Floats.SpecFloat] with precision 53 and maximal exponent 1024).
    - [self] is the record [Monitor]; the variables local to one
      [get_nonblocking_weather] coroutine are the record [Locals].
    - Logging ([self.msg]) has no effect on the modelled state and is left out;
      [self.notify] always returns [True] and is modelled by the list of
      notifications an evaluation hands to it.
    - An exception that leaves a function is the [Raised] outcome of it.
    - The event loop is cooperative: a task runs from one [await] that
      suspends to the next, so the scheduler is a step function that resumes
      one task at one suspension point.  [await self.counter()] does not
      suspend. *)

From Stdlib Require Import ZArith QArith Lqa Lia Bool String.
From Stdlib Require Import Floats.SpecFloat.
From stdpp Require Import base list.

Local Open Scope Z_scope.
Set Warnings "-register-all".

(** ** Python values, exceptions and HTTP responses *)

Module Py.

(** A decoded JSON document, as [r.json()] returns it.  An object keeps its
    members as an association list read from the front. *)
Inductive json :=
| JNull
| JBool (b : bool)
| JNum (q : Q)
| JStr (s : string)
| JArr (items : list json)
| JObj (members : list (string * json)).

(** The exceptions the modelled code can meet. *)
Inductive Exn :=
| TransportError
| TimeoutException
| JSONDecodeError
| KeyError (k : string)
| TypeError
| BadResponse.

(** A computation that returns a value or raises. *)
Inductive result (A : Type) :=
| Ok (a : A)
| Raise (e : Exn).
Arguments Ok {A} a.
Arguments Raise {A} e.

Definition bind {A B} (r : result A) (k : A -> result B) : result B :=
  match r with
  | Ok a => k a
  | Raise e => Raise e
  end.

Notation "x <- e ;; k" := (bind e (fun x => k))
  (at level 200, e at level 99, right associativity).

Fixpoint assoc (k : string) (members : list (string * json)) : option json :=
  match members with
  | [] => None
  | (k', v) :: rest => if String.eqb k k' then Some v else assoc k rest
  end.

(** [j[k]] for a string key: [KeyError] on an object without the key,
    [TypeError] on anything that is not an object. *)
Definition getitem (j : json) (k : string) : result json :=
  match j with
  | JObj members =>
      match assoc k members with
      | Some v => Ok v
      | None => Raise (KeyError k)
      end
  | _ => Raise TypeError
  end.

(** The operand of [current_temp > self.threshold].  A JSON number compares
    as it is, a boolean as the integer it is in Python; every other value
    makes the comparison raise [TypeError]. *)
Definition as_number (j : json) : result Q :=
  match j with
  | JNum q => Ok q
  | JBool b => Ok (if b then 1%Q else 0%Q)
  | _ => Raise TypeError
  end.

(** An HTTP response: its status and its body decoded by [.json()], [None]
    when the body is not JSON (then [.json()] raises). *)
Record Response := mkResponse {
  status_code : Z;
  json_body : option json
}.

Definition json_of (r : Response) : result json :=
  match json_body r with
  | Some j => Ok j
  | None => Raise JSONDecodeError
  end.

(** What a [get] call comes back with: a response, or an exception of the
    HTTP client (no connection, timeout). *)
Inductive Poll :=
| Returned (r : Response)
| Failed (e : Exn).

(** [HTTPStatus.OK] and [requests.codes['ok']]. *)
Definition OK : Z := 200.

End Py.
Import Py.

(** ** The monitor object *)

Module Tracker.

(** The attributes of [self] set in [MonitorDCTemp.__init__] that the
    monitoring code reads or writes.  [lat] and [lon] hold whatever value
    was last assigned to them. *)
Record Monitor := mkMonitor {
  threshold : Q;
  slo : Z;
  lon : json;
  lat : json;
  semaphores : Z;
  count : Z
}.

(** [__init__] with no environment variable set. *)
Definition init_monitor : Monitor :=
  {| threshold := 90; slo := 300; lon := JNum (-738961 # 10000);
     lat := JNum (407036 # 10000); semaphores := 2; count := 0 |}.

Definition set_count (self : Monitor) (c : Z) : Monitor :=
  {| threshold := threshold self; slo := slo self; lon := lon self;
     lat := lat self; semaphores := semaphores self; count := c |}.

Definition set_lat_lon (self : Monitor) (la lo : json) : Monitor :=
  {| threshold := threshold self; slo := slo self; lon := lo;
     lat := la; semaphores := semaphores self; count := count self |}.

(** [counter] (lines 186-190). *)
Definition counter (self : Monitor) (subtract : bool) : Monitor :=
  if negb subtract then set_count self (count self + 1)
  else if count self >? 0 then set_count self (count self - 1)
  else self.

(** The variables [start], [warning], [clearing] and [fired] of one
    [get_nonblocking_weather] coroutine (lines 198-201). *)
Record Locals := mkLocals {
  start : Q;
  warning : bool;
  clearing : bool;
  fired : bool
}.

Definition init_locals (t0 : Q) : Locals :=
  {| start := t0; warning := false; clearing := false; fired := false |}.

Inductive Severity := Breach | Clear.

(** What one call of [self.notify] is given: which of the two messages, and
    the count and the temperature formatted into it.  The elapsed time in
    the text comes from a further [time.time()] call (lines 250 and 277) and
    is not part of the record. *)
Record Notification := mkNote {
  severity : Severity;
  note_count : Z;
  note_temp : Q
}.

(** [x > y] on Python numbers. *)
Definition Qgtb (x y : Q) : bool := negb (Qle_bool x y).

(** An integer as the binary64 number nearest to it: what Python makes of
    an [int] operand of a [float] operation. *)
Definition float_of_int (z : Z) : spec_float :=
  binary_normalize 53 1024 z 0 false.

(** An integer as a mantissa with exponent 0, not rounded. *)
Definition exact_int (z : Z) : spec_float :=
  match z with
  | Z0 => S754_zero false
  | Zpos p => S754_finite false p 0
  | Zneg p => S754_finite true p 0
  end.

(** [a / b] on two [int]s: the binary64 number nearest to the quotient. *)
Definition true_divide (a b : Z) : spec_float :=
  SFdiv 53 1024 (exact_int a) (exact_int b).

(** [(self.semaphores * (self.slo / 10)) - 1] (lines 245 and 271) in
    binary64: the division, the product and the difference are each rounded
    to nearest even. *)
Definition float_floor (self : Monitor) : spec_float :=
  SFsub 53 1024
    (SFmul 53 1024 (float_of_int (semaphores self))
       (true_divide (slo self) 10))
    (float_of_int 1).

(** The rational a finite binary64 number denotes. *)
Definition float_value (f : spec_float) : option Q :=
  match f with
  | S754_zero _ => Some 0%Q
  | S754_finite s m e =>
      let n := if s then Zneg m else Zpos m in
      Some match e with
           | Zneg p => Qmake n (Pos.pow 2 p)
           | _ => inject_Z (n * 2 ^ e)
           end
  | _ => None
  end.

(** The density floor the counter is compared with: the value of
    [float_floor].  Settings so large that Python leaves the finite binary64
    numbers (an operand beyond about 1.8e308, for which it raises
    [OverflowError], or a product that overflows to [inf]) are outside the
    model; the exact value stands in for them. *)
Definition density_floor (self : Monitor) : Q :=
  match float_value (float_floor self) with
  | Some q => q
  | None => (inject_Z (semaphores self) * (inject_Z (slo self) / 10) - 1)%Q
  end.

(** [time.time() - start > self.slo]. *)
Definition slo_elapsed (self : Monitor) (l : Locals) (now : Q) : bool :=
  Qgtb (now - start l)%Q (inject_Z (slo self)).

(** [self.count > (self.semaphores * (self.slo / 10)) - 1]. *)
Definition dense (self : Monitor) : bool :=
  Qgtb (inject_Z (count self)) (density_floor self).

(** Lines 230-284: the threshold check made on one parsed sample.  [now] is
    the reading of [time.time()] that the taken branch uses. *)
Definition evaluate (self : Monitor) (l : Locals) (current_temp now : Q)
  : Monitor * Locals * list Notification :=
  if Qgtb current_temp (threshold self) then
    let self := counter self false in
    if negb (warning l) then
      (set_count self 1,
       {| start := now; warning := true; clearing := false; fired := fired l |},
       [])
    else if warning l && slo_elapsed self l now && dense self then
      (set_count self 0,
       {| start := start l; warning := false; clearing := clearing l;
          fired := true |},
       [mkNote Breach (count self) current_temp])
    else (self, l, [])
  else
    let self := counter self false in
    if warning l && negb (clearing l) then
      (set_count self 1,
       {| start := now; warning := false; clearing := true; fired := fired l |},
       [])
    else if clearing l && slo_elapsed self l now && dense self then
      (set_count self 0,
       {| start := start l; warning := warning l; clearing := false;
          fired := if fired l then false else fired l |},
       if fired l
       then [mkNote Clear (count self) current_temp]
       else [])
    else if negb (fired l) && negb (clearing l) then (set_count self 0, l, [])
    else (self, l, []).

(** Whether a notification of the given severity is among those emitted. *)
Definition is_severity (s : Severity) (n : Notification) : bool :=
  match s, severity n with
  | Breach, Breach | Clear, Clear => true
  | _, _ => false
  end.


(** The phases of the specification, read off the two flags. *)
Inductive Phase := Nominal | Warning | Clearing.

Definition phase (l : Locals) : option Phase :=
  match warning l, clearing l with
  | false, false => Some Nominal
  | true, false => Some Warning
  | false, true => Some Clearing
  | true, true => None
  end.


(** A task in the nominal phase that has not fired. *)
Definition idle (l : Locals) : Prop :=
  warning l = false /\ clearing l = false /\ fired l = false.

End Tracker.

(** ** One polling task's loop body *)

Module Loop.
Import Tracker.

(** How one pass through [while True] ends: at the bottom of the loop, ready
    for the next pass, or with an exception that leaves the coroutine (the
    function has no [try]). *)
Inductive Outcome :=
| Continue (self : Monitor) (l : Locals) (notes : list Notification)
| Raised (e : Exn) (self : Monitor) (l : Locals).

(** Lines 220-221: [r.json()['main']['temp']], then [r.json()['name']]. *)
Definition parse_weather (r : Response) : result (json * json) :=
  body <- json_of r ;;
  main <- getitem body "main" ;;
  current_temp <- getitem main "temp" ;;
  body' <- json_of r ;;
  location_name <- getitem body' "name" ;;
  Ok (current_temp, location_name).

(** Lines 219-287: what the loop body does with the response [r] once the
    request has returned (and the cooldown, if any, is over). *)
Definition handle_response (self : Monitor) (l : Locals) (r : Response)
  (now : Q) : Outcome :=
  if status_code r =? OK then
    match (parsed <- parse_weather r ;; as_number (fst parsed)) with
    | Ok current_temp =>
        let '(self', l', notes) := evaluate self l current_temp now in
        Continue self' l' notes
    | Raise e => Raised e self l
    end
  else Continue self l [].

(** Lines 207-287 for a request that has completed: an exception of the
    client leaves the coroutine at line 207. *)
Definition loop_body (self : Monitor) (l : Locals) (p : Poll) (now : Q)
  : Outcome :=
  match p with
  | Failed e => Raised e self l
  | Returned r => handle_response self l r now
  end.

(** [get_blocking_weather] (lines 154-184), the one-shot sibling of the loop
    body: the request and the parsing are inside [try ... except], the
    comparison with the threshold is after it.  The list holds the
    temperatures handed to [self.notify]. *)
Definition get_blocking_weather (self : Monitor) (p : Poll)
  : result (bool * list Q) :=
  match (r <- match p with Returned r => Ok r | Failed e => Raise e end ;;
         _ <- (if negb (status_code r =? OK) then Raise BadResponse
               else Ok tt) ;;
         parse_weather r) with
  | Raise _ => Ok (false, [])
  | Ok (current_temp, _) =>
      t <- as_number current_temp ;;
      if Qgtb t (threshold self) then Ok (true, [t]) else Ok (true, [])
  end.

End Loop.

(** ** Several tasks sharing one monitor object *)

Module Fleet.
Import Tracker.

(** [self] and the locals of every task created at line 347. *)
Record State := mkState {
  self : Monitor;
  tasks : list Locals
}.

(** What can write [self.count]: a call of [counter], or the evaluation of a
    parsed sample by task [num]. *)
Inductive Op :=
| CallCounter (subtract : bool)
| Sample (num : nat) (current_temp now : Q).

Definition apply (st : State) (op : Op) : State * list Notification :=
  match op with
  | CallCounter subtract =>
      ({| self := counter (self st) subtract; tasks := tasks st |}, [])
  | Sample num current_temp now =>
      match tasks st !! num with
      | Some l =>
          let '(self', l', notes) := evaluate (self st) l current_temp now in
          ({| self := self'; tasks := <[num := l']> (tasks st) |}, notes)
      | None => (st, [])
      end
  end.

Fixpoint run (st : State) (ops : list Op) : State * list Notification :=
  match ops with
  | [] => (st, [])
  | op :: rest =>
      let '(st', notes) := apply st op in
      let '(st'', notes') := run st' rest in
      (st'', notes ++ notes')
  end.

(** [n] tasks that have just read their [start] time, around a monitor. *)
Definition fresh (m : Monitor) (t0 : nat -> Q) (n : nat) : State :=
  {| self := m; tasks := map (fun num => init_locals (t0 num)) (seq 0 n) |}.

(** An operation that is a sample at or below the threshold of [m]. *)
Definition clear_sample (m : Monitor) (op : Op) : Prop :=
  match op with
  | Sample _ current_temp _ => (current_temp <= threshold m)%Q
  | CallCounter _ => False
  end.

(** [n] samples of task [num] at temperature [temp], one every [dt] seconds
    from time [t] on. *)
Fixpoint steady (num : nat) (temp t dt : Q) (n : nat) : list Op :=
  match n with
  | O => []
  | S n' => Sample num temp t :: steady num temp (t + dt)%Q dt n'
  end.

End Fleet.

(** ** The permit pool and the scheduler *)

Module Sampler.
Import Tracker Loop.

(** Where a task is suspended: before [async with semaphore] (holding no
    permit), in [await client.get] or in [await asyncio.sleep(10)] (holding
    one), or out of the coroutine after an exception. *)
Inductive Pc :=
| AtAcquire
| InGet
| InSleep (r : Response)
| Exited (e : Exn).

Record Task := mkTask {
  pc : Pc;
  locals : Locals
}.

(** [permits] is the semaphore's [_value]. *)
Record System := mkSystem {
  self : Monitor;
  permits : Z;
  tasks : list Task
}.

(** What the event loop can resume a task with. *)
Inductive Event :=
| Acquire (num : nat)
| GetReturns (num : nat) (r : Response) (now : Q)
| GetRaises (num : nat) (e : Exn)
| SleepEnds (num : nat) (now : Q).

Definition set_task (s : System) (num : nat) (t : Task) : list Task :=
  <[num := t]> (tasks s).

(** The rest of the loop body and the exit from [async with], which gives
    the permit back whether the body raised or not. *)
Definition finish (s : System) (num : nat) (t : Task) (r : Response) (now : Q)
  : System * list Notification :=
  match handle_response (self s) (locals t) r now with
  | Continue self' l' notes =>
      ({| self := self'; permits := permits s + 1;
          tasks := set_task s num {| pc := AtAcquire; locals := l' |} |},
       notes)
  | Raised e self' l' =>
      ({| self := self'; permits := permits s + 1;
          tasks := set_task s num {| pc := Exited e; locals := l' |} |},
       [])
  end.

(** One resumption of one task; [None] when the task cannot be resumed that
    way (another suspension point, or no permit left to acquire). *)
Definition step (s : System) (ev : Event)
  : option (System * list Notification) :=
  match ev with
  | Acquire num =>
      match tasks s !! num with
      | Some {| pc := AtAcquire; locals := l |} =>
          if permits s >? 0 then
            Some ({| self := self s; permits := permits s - 1;
                     tasks := set_task s num {| pc := InGet; locals := l |} |},
                  [])
          else None
      | _ => None
      end
  | GetReturns num r now =>
      match tasks s !! num with
      | Some {| pc := InGet; locals := l |} =>
          if permits s =? 0 then
            Some ({| self := self s; permits := permits s;
                     tasks := set_task s num {| pc := InSleep r; locals := l |} |},
                  [])
          else Some (finish s num {| pc := InGet; locals := l |} r now)
      | _ => None
      end
  | GetRaises num e =>
      match tasks s !! num with
      | Some {| pc := InGet; locals := l |} =>
          Some ({| self := self s; permits := permits s + 1;
                   tasks := set_task s num {| pc := Exited e; locals := l |} |},
                [])
      | _ => None
      end
  | SleepEnds num now =>
      match tasks s !! num with
      | Some {| pc := InSleep r; locals := l |} =>
          Some (finish s num {| pc := InSleep r; locals := l |} r now)
      | _ => None
      end
  end.

Fixpoint run (s : System) (evs : list Event)
  : option (System * list Notification) :=
  match evs with
  | [] => Some (s, [])
  | ev :: rest =>
      match step s ev with
      | Some (s', notes) =>
          match run s' rest with
          | Some (s'', notes') => Some (s'', notes ++ notes')
          | None => None
          end
      | None => None
      end
  end.

(** Lines 343-348 of [parse_cmdline]: a semaphore of [mon.semaphores] permits
    and as many tasks.  [asyncio.Semaphore] refuses a negative value. *)
Definition boot (m : Monitor) (t0 : nat -> Q) : option System :=
  if semaphores m <? 0 then None
  else Some {| self := m; permits := semaphores m;
               tasks := map (fun num => {| pc := AtAcquire;
                                           locals := init_locals (t0 num) |})
                            (seq 0 (Z.to_nat (semaphores m))) |}.

Definition in_get (t : Task) : bool :=
  match pc t with InGet => true | _ => false end.

Definition holds_permit (t : Task) : bool :=
  match pc t with InGet | InSleep _ => true | _ => false end.

Fixpoint tally (p : Task -> bool) (ts : list Task) : Z :=
  match ts with
  | [] => 0
  | t :: rest => (if p t then 1 else 0) + tally p rest
  end.

(** Requests sent and not yet answered. *)
Definition outstanding (s : System) : Z := tally in_get (tasks s).

Definition permits_held (s : System) : Z := tally holds_permit (tasks s).

Definition at_acquire (t : Task) : bool :=
  match pc t with AtAcquire => true | _ => false end.

(** The monitor and the locals of the tasks, without the suspension points
    and the semaphore. *)
Definition fleet_of (s : System) : Fleet.State :=
  {| Fleet.self := self s; Fleet.tasks := map locals (tasks s) |}.

(** The accounting of the semaphore: permits left plus permits held is the
    size of the pool, and the number left is never negative. *)
Definition pool_ok (size : Z) (s : System) : Prop :=
  permits s + permits_held s = size /\ 0 <= permits s.

End Sampler.

(** ** The geolocation lookup *)

Module Geo.
Import Tracker.

(** [set_location] (lines 133-152).  [geo] is the geocoding service: what the
    request for a zip code comes back with. *)
Definition set_location (geo : Z -> Poll) (self : Monitor) (zip : Z)
  : bool * Monitor :=
  match (location <- match geo zip with
                     | Returned r => Ok r
                     | Failed e => Raise e
                     end ;;
         _ <- (if negb (status_code location =? OK) then Raise BadResponse
               else Ok tt) ;;
         body <- json_of location ;;
         la <- getitem body "lat" ;;
         body' <- json_of location ;;
         lo <- getitem body' "lon" ;;
         Ok (la, lo)) with
  | Ok (la, lo) => (true, set_lat_lon self la lo)
  | Raise _ => (false, self)
  end.

(** The member [k] of the document a response carries, if the body is a
    JSON object that has one. *)
Definition member (r : Response) (k : string) : option json :=
  match json_body r with
  | Some (JObj members) => assoc k members
  | _ => None
  end.

End Geo.

(** ** Counting notifications *)

Module Counting.
Import Tracker.

(** How many of the notifications have the given severity. *)
Fixpoint notes_of (s : Severity) (notes : list Notification) : Z :=
  match notes with
  | [] => 0
  | n :: rest => (if is_severity s n then 1 else 0) + notes_of s rest
  end.

(** How many tasks have [fired = True]. *)
Fixpoint fired_tasks (ls : list Locals) : Z :=
  match ls with
  | [] => 0
  | l :: rest => (if fired l then 1 else 0) + fired_tasks rest
  end.

(** A message whose count is above the density floor of [m]. *)
Definition above_floor (m : Monitor) (n : Notification) : Prop :=
  (density_floor m < inject_Z (note_count n))%Q.

(** A 200 response that reports the temperature [temp]. *)
Definition weather_response (temp : Q) : Response :=
  {| status_code := 200;
     json_body :=
       Some (JObj [("main"%string, JObj [("temp"%string, JNum temp)]);
                   ("name"%string, JStr "Queens")]) |}.

(** One worker's pass through the loop that ends with the evaluation, at
    time [now], of a response reporting [temp]: with a single permit the
    semaphore is locked when the request returns, so the task sleeps
    first. *)
Definition poll_once (temp now : Q) : list Sampler.Event :=
  [Sampler.Acquire 0;
   Sampler.GetReturns 0 (weather_response temp) now;
   Sampler.SleepEnds 0 now].




(** A monitor with one worker and an SLO of 20 seconds (density floor 1),
    and a run of its system: two breaching polls 30 seconds apart send the
    breach message, a third reopens the warning, and two clear polls 30
    seconds apart send the clear message. *)
Definition small_monitor : Monitor :=
  {| threshold := 90; slo := 20; lon := JNull; lat := JNull;
     semaphores := 1; count := 0 |}.

Definition breach_then_dip : list Sampler.Event :=
  poll_once 95 0 ++ poll_once 95 30 ++ poll_once 95 40 ++ poll_once 80 50.

Definition breach_then_clear : list Sampler.Event :=
  breach_then_dip ++ poll_once 80 80.

End Counting.

(** ** The command line *)

Module Cli.
Import Tracker Loop.

(** What can leave [parse_cmdline]: the [ValueError] of [int], [float] and
    [asyncio.Semaphore], or an exception of the monitor's own methods. *)
Inductive Error :=
| ValueError
| Uncaught (e : Exn).

Inductive attempt (A : Type) :=
| Fine (a : A)
| Crash (e : Error).
Arguments Fine {A} a.
Arguments Crash {A} e.

Definition and_then {A B} (r : attempt A) (k : A -> attempt B) : attempt B :=
  match r with
  | Fine a => k a
  | Crash e => Crash e
  end.

Notation "x <~ e ;; k" := (and_then e (fun x => k))
  (at level 200, e at level 99, right associativity).

(** The three environment variables [__init__] converts (lines 37-53). *)
Record Env := mkEnv {
  THRESHOLD_TEMP : option string;
  SLO_TEMP : option string;
  SEMAPHORES : option string
}.

(** [options.concurrency]: the integer 2 of [default=2], or the string
    given on the command line. *)
Inductive Concurrency :=
| Unset
| Given (s : string).

(** The namespace [parser.parse_args] returns (lines 298-331). *)
Record Options := mkOptions {
  verbose : bool;
  zip : option string;
  concurrency : Concurrency;
  threshold : option string;
  once : bool;
  forever : bool
}.

(** The same options with another [--forever], and without [--zip]. *)
Definition with_forever (o : Options) (b : bool) : Options :=
  {| verbose := verbose o; zip := zip o; concurrency := concurrency o;
     threshold := threshold o; once := once o; forever := b |}.

Definition without_zip (o : Options) : Options :=
  {| verbose := verbose o; zip := None; concurrency := concurrency o;
     threshold := threshold o; once := once o; forever := forever o |}.

(** How [parse_cmdline] ends: with an exception, by returning [options]
    (here the monitor as it then is, with the temperatures the one-shot
    check handed to [notify]), or inside [loop.run_forever()] with the
    system it has started. *)
Inductive Outcome :=
| Crashed (e : Error)
| Returns (mon : Monitor) (notified : list Q)
| RunsForever (s : Sampler.System).

(** The truth value of a string: false only when empty. *)
Definition truthy (s : string) : bool := negb (String.eqb s "").

Definition set_threshold (self : Monitor) (t : Q) : Monitor :=
  {| Tracker.threshold := t; slo := slo self; lon := lon self;
     lat := lat self; semaphores := semaphores self; count := count self |}.

Definition set_semaphores (self : Monitor) (n : Z) : Monitor :=
  {| Tracker.threshold := Tracker.threshold self; slo := slo self;
     lon := lon self; lat := lat self; semaphores := n;
     count := count self |}.

Section Conversions.

(** [int(s)] and [float(s)] on strings, [None] for [ValueError]; [geo] and
    [weather] are the two services, the second asked with [self.lat] and
    [self.lon]; [t0] is each task's first [time.time()] reading. *)
Variable to_int : string -> option Z.
Variable to_float : string -> option Q.
Variable geo : Z -> Poll.
Variable weather : json -> json -> Poll.
Variable t0 : nat -> Q.

Definition convert {A} (f : string -> option A) (s : string) : attempt A :=
  match f s with
  | Some v => Fine v
  | None => Crash ValueError
  end.

(** The values [__init__] computes (lines 37-54). *)
Definition init (env : Env) : attempt Monitor :=
  th <~ match THRESHOLD_TEMP env with
        | None => Fine 90%Q
        | Some s => convert to_float s
        end ;;
  sl <~ match SLO_TEMP env with
        | None => Fine 300
        | Some s => convert to_int s
        end ;;
  sem <~ match SEMAPHORES env with
         | None => Fine 2
         | Some s => convert to_int s
         end ;;
  Fine {| Tracker.threshold := th; slo := sl;
          lon := JNum (-738961 # 10000); lat := JNum (407036 # 10000);
          semaphores := sem; count := 0 |}.

(** Lines 334-339: the options that change the monitor, in order. *)
Definition configure (mon : Monitor) (options : Options) : attempt Monitor :=
  mon <~ match zip options with
         | Some s =>
             if truthy s
             then z <~ convert to_int s ;;
                  Fine (snd (Geo.set_location geo mon z))
             else Fine mon
         | None => Fine mon
         end ;;
  mon <~ match threshold options with
         | Some s =>
             if truthy s
             then t <~ convert to_float s ;; Fine (set_threshold mon t)
             else Fine mon
         | None => Fine mon
         end ;;
  match concurrency options with
  | Unset => Fine (set_semaphores mon 2)
  | Given s =>
      if truthy s
      then n <~ convert to_int s ;; Fine (set_semaphores mon n)
      else Fine mon
  end.

(** Line 295 and lines 334-339: the monitor as it is when the mode is
    chosen. *)
Definition setup (env : Env) (options : Options) : attempt Monitor :=
  mon <~ init env ;; configure mon options.

(** [parse_cmdline] (lines 290-350) from the parsed [options] on.
    [--verbose] only changes logging. *)
Definition parse_cmdline (env : Env) (options : Options) : Outcome :=
  match setup env options with
  | Crash e => Crashed e
  | Fine mon =>
      if once options then
        match get_blocking_weather mon (weather (lat mon) (lon mon)) with
        | Ok (_, notified) => Returns mon notified
        | Raise e => Crashed (Uncaught e)
        end
      else if forever options then
        match Sampler.boot mon t0 with
        | Some s => RunsForever s
        | None => Crashed ValueError
        end
      else Returns mon []
  end.

End Conversions.

End Cli.

(** ** Logging *)

Module Log.

(** The levels of [logging] that the code uses or compares with. *)
Definition NOTSET : Z := 0.
Definition DEBUG : Z := 10.
Definition INFO : Z := 20.
Definition ERROR : Z := 40.

(** [self.logger]: its level, and the calls made to it so far, oldest
    first, each with the level of the method called and the text. *)
Record Logger := mkLogger {
  level : Z;
  records : list (Z * string)
}.

(** The logger as [logging.getLogger] hands it out (level [NOTSET]). *)
Definition fresh : Logger := {| level := NOTSET; records := [] |}.

Definition emit (lg : Logger) (levelno : Z) (text : string) : Logger :=
  {| level := level lg; records := records lg ++ [(levelno, text)] |}.

(** [pathlib.Path(__file__).name]. *)
Definition file_name : string := "monitor_dc_temp.py".

(** [msg] (lines 92-113), called from the function [func_name]. *)
Definition msg (lg : Logger) (func_name data : string) (debug : bool)
  : bool * Logger :=
  if String.eqb data "" then (false, emit lg ERROR "Empty log message")
  else
    let text :=
      String.append file_name
        (String.append "|" (String.append func_name (String.append ": " data)))
    in
    if (level lg =? 10) && debug then (true, emit lg DEBUG text)
    else (true, emit lg INFO text).

(** [set_debug] (lines 83-90). *)
Definition set_debug (lg : Logger) : bool * Logger :=
  let lg := {| level := DEBUG; records := records lg |} in
  (true, snd (msg lg "set_debug" "Debugging output enabled 10" false)).

(** [notify] (lines 115-131); the call to Slack is commented out. *)
Definition notify (lg : Logger) (text : string) : bool * Logger :=
  (true, snd (msg lg "notify" "Sending slack message" false)).

End Log.

(** * Properties *)

Import Tracker.

(** ** Comparisons *)

Lemma Qgtb_true (x y : Q) : Qgtb x y = true <-> (y < x)%Q.
Proof.
  unfold Qgtb. rewrite negb_true_iff. split.
  - intros H. apply Qnot_le_lt. intros Hle.
    apply Qle_bool_iff in Hle. congruence.
  - intros H. destruct (Qle_bool x y) eqn:E; [|reflexivity].
    apply Qle_bool_iff in E. exfalso. apply (Qlt_not_le _ _ H E).
Qed.

Lemma Qgtb_false (x y : Q) : Qgtb x y = false <-> (x <= y)%Q.
Proof.
  unfold Qgtb. rewrite negb_false_iff. apply Qle_bool_iff.
Qed.

Lemma slo_elapsed_counter self l now :
  slo_elapsed (counter self false) l now = slo_elapsed self l now.
Proof. reflexivity. Qed.

Lemma slo_elapsed_true self l now :
  slo_elapsed self l now = true <-> (inject_Z (slo self) < now - start l)%Q.
Proof. apply Qgtb_true. Qed.

Lemma dense_counter_true self :
  dense (counter self false) = true <->
  (density_floor self < inject_Z (count self + 1))%Q.
Proof. apply Qgtb_true. Qed.

(** The floor is the binary64 one.  For 15 workers and an SLO of 82 seconds
    the exact value of [15 * (82 / 10) - 1] is 122, but [82 / 10] is rounded
    to a number below 8.2 and the floor Python compares with is
    [122 - 2^-46] (printed 121.99999999999999): a counter of 122 is above
    it.  For the defaults (2 workers, 300 seconds) the floor is exactly
    59. *)
Lemma density_floor_is_rounded :
  density_floor {| threshold := 90; slo := 82; lon := JNull; lat := JNull;
                   semaphores := 15; count := 0 |} =
    (8584986789675007 # 70368744177664)%Q /\
  dense {| threshold := 90; slo := 82; lon := JNull; lat := JNull;
           semaphores := 15; count := 122 |} = true /\
  (density_floor init_monitor == 59)%Q.
Proof. repeat split. Qed.

(** ** The evaluation, branch by branch *)






Lemma evaluate_clear_wait self l temp now :
  Qgtb temp (threshold self) = false -> clearing l = true ->
  slo_elapsed self l now && dense (counter self false) = false ->
  evaluate self l temp now = (counter self false, l, []).
Proof.
  intros Ht Hc Hw. unfold evaluate.
  rewrite Ht, Hc, slo_elapsed_counter, !andb_false_r. cbv iota.
  rewrite andb_true_l, Hw. reflexivity.
Qed.

Lemma evaluate_clear_idle self l temp now :
  Qgtb temp (threshold self) = false ->
  warning l = false -> clearing l = false -> fired l = false ->
  evaluate self l temp now = (set_count self 0, l, []).
Proof.
  intros Ht Hw Hc Hf. unfold evaluate. rewrite Ht, Hw, Hc, Hf. reflexivity.
Qed.

Lemma evaluate_clear_limbo self l temp now :
  Qgtb temp (threshold self) = false ->
  warning l = false -> clearing l = false -> fired l = true ->
  evaluate self l temp now = (counter self false, l, []).
Proof.
  intros Ht Hw Hc Hf. unfold evaluate. rewrite Ht, Hw, Hc, Hf. reflexivity.
Qed.

(** ** Breach notification from the warning phase *)




(** ** Runs of several tasks *)

Lemma fleet_run_app st ops ops' :
  Fleet.run st (ops ++ ops') =
  (fst (Fleet.run (fst (Fleet.run st ops)) ops'),
   snd (Fleet.run st ops) ++ snd (Fleet.run (fst (Fleet.run st ops)) ops')).
Proof.
  revert st. induction ops as [|op ops IH]; intros st; simpl.
  - destruct (Fleet.run st ops'); reflexivity.
  - destruct (Fleet.apply st op) as [st1 n1]. rewrite IH.
    destruct (Fleet.run st1 ops) as [st2 n2]. simpl.
    destruct (Fleet.run st2 ops') as [st3 n3]. simpl.
    rewrite app_assoc. reflexivity.
Qed.

(** After a breach notification the task has [warning = clearing = False]
    and [fired = True]; no branch of lines 263-284 applies to a clear sample
    then, so any number of them only counts up. *)
Lemma limbo_absorbs_clear m l temp dt n : forall t,
  Qgtb temp (threshold m) = false ->
  warning l = false -> clearing l = false -> fired l = true ->
  Fleet.run {| Fleet.self := m; Fleet.tasks := [l] |}
            (Fleet.steady 0 temp t dt n) =
  ({| Fleet.self := if n is O then m else set_count m (count m + Z.of_nat n);
      Fleet.tasks := [l] |}, []).
Proof.
  revert m. induction n as [|n IH]; intros m t Ht Hw Hc Hf; [reflexivity|].
  cbn [Fleet.steady Fleet.run Fleet.apply Fleet.tasks Fleet.self].
  change ([l] !! 0%nat) with (Some l). cbv beta iota.
  rewrite (evaluate_clear_limbo _ _ _ _ Ht Hw Hc Hf).
  change (<[0%nat:=l]> [l]) with [l].
  rewrite (IH (counter m false) (t + dt)%Q Ht Hw Hc Hf).
  simpl. f_equal. f_equal. destruct n.
  - reflexivity.
  - unfold set_count; simpl. f_equal. lia.
Qed.

(** ** Clearing after a breach notification *)

(** C2 fails on the code.  With one worker ([--concurrency 1], floor 29):
    32 samples at 95F, ten seconds apart, fire the breach notification at
    t = 310 and leave the task outside the warning phase; however many clear
    samples follow, the task never enters the clearing phase and no clear
    notification is emitted. *)
Theorem clear_after_breach_is_lost (n : nat) :
  let m := {| threshold := 90; slo := 300; lon := lon init_monitor;
              lat := lat init_monitor; semaphores := 1; count := 0 |} in
  let breaching := Fleet.steady 0 95 0 10 32 in
  let clear := Fleet.steady 0 80 320 10 n in
  let after_breach := Fleet.run (Fleet.fresh m (fun _ => 0%Q) 1) breaching in
  let at_end := Fleet.run (Fleet.fresh m (fun _ => 0%Q) 1)
                          (breaching ++ clear) in
  map severity (snd after_breach) = [Breach] /\
  Fleet.tasks (fst after_breach) =
    [{| start := 0; warning := false; clearing := false; fired := true |}] /\
  map severity (snd at_end) = [Breach] /\
  Fleet.tasks (fst at_end) =
    [{| start := 0; warning := false; clearing := false; fired := true |}].
Proof.
  cbv zeta.
  set (m := {| threshold := 90; slo := 300; lon := lon init_monitor;
               lat := lat init_monitor; semaphores := 1; count := 0 |}).
  rewrite fleet_run_app.
  assert (E : Fleet.run (Fleet.fresh m (fun _ => 0%Q) 1)
                (Fleet.steady 0 95 0 10 32) =
              ({| Fleet.self := m;
                  Fleet.tasks := [{| start := 0; warning := false;
                                     clearing := false; fired := true |}] |},
               [mkNote Breach 32 95]))
    by (vm_compute; reflexivity).
  rewrite E. cbn [fst snd].
  rewrite limbo_absorbs_clear by reflexivity.
  cbn [fst snd Fleet.tasks]. rewrite app_nil_r.
  repeat split; reflexivity.
Qed.

(** ** Samples at or below the threshold *)

Lemma set_count_same self : set_count self (count self) = self.
Proof. destruct self; reflexivity. Qed.






(** With the counter at 0 and every task idle, a clear sample leaves the
    whole state as it is. *)
Lemma fleet_apply_idle st op :
  count (Fleet.self st) = 0 -> Forall idle (Fleet.tasks st) ->
  Fleet.clear_sample (Fleet.self st) op ->
  Fleet.apply st op = (st, []).
Proof.
  intros H0 Hi Hop. destruct op as [subtract|num temp now]; [destruct Hop|].
  simpl in *. destruct (Fleet.tasks st !! num) as [l|] eqn:El; [|reflexivity].
  assert (Hl : idle l) by (eapply Forall_lookup_1; eauto).
  destruct Hl as (Hw & Hc & Hf). apply Qgtb_false in Hop.
  rewrite (evaluate_clear_idle _ _ _ _ Hop Hw Hc Hf).
  rewrite <- H0, set_count_same, list_insert_id by exact El.
  destruct st; reflexivity.
Qed.

Lemma fleet_run_idle ops st :
  count (Fleet.self st) = 0 -> Forall idle (Fleet.tasks st) ->
  Forall (Fleet.clear_sample (Fleet.self st)) ops ->
  Fleet.run st ops = (st, []).
Proof.
  intros H0 Hi. induction ops as [|op ops IH]; intros Hops; [reflexivity|].
  inversion Hops as [|? ? Hop Hrest]; subst. simpl.
  rewrite (fleet_apply_idle st op H0 Hi Hop), (IH Hrest). reflexivity.
Qed.

Lemma fresh_idle m t0 n : Forall idle (Fleet.tasks (Fleet.fresh m t0 n)).
Proof.
  unfold Fleet.fresh. simpl. apply Forall_forall. intros l Hl.
  apply list_elem_of_fmap in Hl. destruct Hl as (num & -> & _).
  repeat split.
Qed.

(** C3: from the initial state, along any sequence of samples at or below
    the threshold, delivered to the tasks in any order, nothing is handed to
    [notify], every task keeps [warning = clearing = False] (the nominal
    phase), and the counter is 0 after each sample. *)
Theorem all_clear_stays_nominal m t0 n ops k :
  count m = 0 ->
  Forall (Fleet.clear_sample m) ops ->
  snd (Fleet.run (Fleet.fresh m t0 n) (take k ops)) = [] /\
  count (Fleet.self (fst (Fleet.run (Fleet.fresh m t0 n) (take k ops)))) = 0 /\
  Forall (fun l => phase l = Some Nominal)
    (Fleet.tasks (fst (Fleet.run (Fleet.fresh m t0 n) (take k ops)))).
Proof.
  intros H0 Hops.
  rewrite (fleet_run_idle (take k ops) (Fleet.fresh m t0 n) H0
             (fresh_idle m t0 n) (Forall_take _ k _ Hops)).
  simpl. repeat split; [exact H0|].
  eapply Forall_impl; [apply (fresh_idle m t0 n)|].
  intros l (Hw & Hc & _). unfold phase. rewrite Hw, Hc. reflexivity.
Qed.

Lemma all_clear_stays_nominal_witness :
  snd (Fleet.run (Fleet.fresh init_monitor (fun _ => 0%Q) 2)
         (take 3 [Fleet.Sample 0 70 10; Fleet.Sample 1 90 12;
                  Fleet.Sample 0 (-4) 20])) = [].
Proof.
  apply (all_clear_stays_nominal init_monitor (fun _ => 0%Q) 2
           [Fleet.Sample 0 70 10; Fleet.Sample 1 90 12;
            Fleet.Sample 0 (-4) 20] 3).
  - reflexivity.
  - repeat constructor; simpl; discriminate.
Defined.

(** ** Clearing without a prior breach notification *)



(** ** A transient dip during a warning *)



(** ** The shared counter *)

Lemma counter_nonneg self subtract :
  0 <= count self -> 0 <= count (counter self subtract).
Proof.
  intros H. unfold counter. destruct subtract; simpl.
  - destruct (count self >? 0) eqn:E; simpl; lia.
  - lia.
Qed.

Lemma evaluate_count_nonneg self l temp now :
  0 <= count self -> 0 <= count (fst (fst (evaluate self l temp now))).
Proof.
  intros H. unfold evaluate.
  destruct (Qgtb temp (threshold self)), (warning l), (clearing l), (fired l);
    simpl; try lia;
    destruct (slo_elapsed (counter self false) l now); simpl; try lia;
    destruct (dense (counter self false)); simpl; lia.
Qed.

Lemma fleet_apply_count_nonneg st op :
  0 <= count (Fleet.self st) ->
  0 <= count (Fleet.self (fst (Fleet.apply st op))).
Proof.
  intros H. destruct op as [subtract|num temp now]; simpl.
  - apply counter_nonneg, H.
  - destruct (Fleet.tasks st !! num) as [l|]; [|exact H].
    pose proof (evaluate_count_nonneg (Fleet.self st) l temp now H) as H'.
    destruct (evaluate (Fleet.self st) l temp now) as [[s' l'] notes].
    exact H'.
Qed.

Lemma fleet_run_count_nonneg ops : forall st,
  0 <= count (Fleet.self st) ->
  0 <= count (Fleet.self (fst (Fleet.run st ops))).
Proof.
  induction ops as [|op ops IH]; intros st H; simpl; [exact H|].
  pose proof (fleet_apply_count_nonneg st op H) as H1.
  destruct (Fleet.apply st op) as [st1 n1]. simpl in H1.
  specialize (IH st1 H1).
  destruct (Fleet.run st1 ops) as [st2 n2]. exact IH.
Qed.

(** ** Exceptions in the polling loop *)

Import Loop.

Lemma handle_response_parse_error self l r now e :
  status_code r = OK -> parse_weather r = Raise e ->
  handle_response self l r now = Raised e self l.
Proof.
  intros Hs Hp. unfold handle_response. rewrite Hs, Hp. reflexivity.
Qed.

Lemma handle_response_bad_status self l r now :
  status_code r <> OK -> handle_response self l r now = Continue self l [].
Proof.
  intros Hs. unfold handle_response.
  destruct (Z.eqb_spec (status_code r) OK); [contradiction|reflexivity].
Qed.

(** C6 fails on the code.  A 200 response whose document has no ['main']
    member (or a ['main'] without ['temp']) makes line 220 raise [KeyError],
    and [get_nonblocking_weather] has no handler: the monitor and the locals
    are as they were, but the coroutine is left, so that in the running
    system the task is [Exited] and can be resumed by no event.  The
    one-shot sibling [get_blocking_weather] catches the same error and
    returns [False]. *)
Theorem malformed_sample_ends_the_loop :
  let no_main := {| status_code := 200;
                    json_body := Some (JObj [("name"%string, JStr "Queens")]) |} in
  let no_temp := {| status_code := 200;
                    json_body := Some (JObj [("main"%string, JObj []);
                                             ("name"%string, JStr "Queens")]) |} in
  (forall self l now,
     loop_body self l (Returned no_main) now = Raised (KeyError "main") self l /\
     loop_body self l (Returned no_temp) now = Raised (KeyError "temp") self l /\
     get_blocking_weather self (Returned no_main) = Ok (false, [])) /\
  (forall now,
   exists s,
     (s0 ← Sampler.boot init_monitor (fun _ => 0%Q);
      Sampler.run s0 [Sampler.Acquire 0; Sampler.GetReturns 0 no_main now])
     = Some (s, []) /\
     Sampler.self s = init_monitor /\
     Sampler.tasks s !! 0%nat =
       Some {| Sampler.pc := Sampler.Exited (KeyError "main");
               Sampler.locals := init_locals 0 |} /\
     forall r now' e,
       Sampler.step s (Sampler.Acquire 0) = None /\
       Sampler.step s (Sampler.GetReturns 0 r now') = None /\
       Sampler.step s (Sampler.GetRaises 0 e) = None /\
       Sampler.step s (Sampler.SleepEnds 0 now') = None).
Proof.
  cbv zeta. split.
  - intros self l now. repeat split.
  - intros now. eexists. split; [reflexivity|]. repeat split.
Qed.

(** C7 fails on the code.  An exception of the HTTP client (no connection,
    timeout) leaves [await client.get] at line 207 with no handler around
    it: the coroutine is left, the task is [Exited] and no event resumes it.
    Only a response with a status other than 200 is logged and skipped.  The
    one-shot sibling [get_blocking_weather] catches the exception and returns
    [False]. *)
Theorem poll_failure_ends_the_loop :
  (forall self l e now,
     loop_body self l (Failed e) now = Raised e self l /\
     get_blocking_weather self (Failed e) = Ok (false, [])) /\
  (exists s,
     (s0 ← Sampler.boot init_monitor (fun _ => 0%Q);
      Sampler.run s0 [Sampler.Acquire 0;
                      Sampler.GetRaises 0 TimeoutException])
     = Some (s, []) /\
     Sampler.tasks s !! 0%nat =
       Some {| Sampler.pc := Sampler.Exited TimeoutException;
               Sampler.locals := init_locals 0 |} /\
     forall r now e,
       Sampler.step s (Sampler.Acquire 0) = None /\
       Sampler.step s (Sampler.GetReturns 0 r now) = None /\
       Sampler.step s (Sampler.GetRaises 0 e) = None /\
       Sampler.step s (Sampler.SleepEnds 0 now) = None).
Proof.
  split.
  - intros self l e now. split; reflexivity.
  - eexists. split; [reflexivity|]. repeat split.
Qed.

(** ** The permit pool *)

Import Sampler.

Lemma tally_insert p ts : forall num t t',
  ts !! num = Some t ->
  tally p (<[num := t']> ts) =
  tally p ts - (if p t then 1 else 0) + (if p t' then 1 else 0).
Proof.
  induction ts as [|a ts IH]; intros [|num] t t' H; simpl in *;
    try discriminate.
  - injection H as ->. lia.
  - rewrite (IH num t t' H). lia.
Qed.

Lemma tally_le (p q : Task -> bool) ts :
  (forall t, p t = true -> q t = true) -> tally p ts <= tally q ts.
Proof.
  intros Hpq. induction ts as [|a ts IH]; simpl; [lia|].
  pose proof (Hpq a) as Ha.
  destruct (p a), (q a); first [lia | discriminate (Ha eq_refl)].
Qed.

Lemma tally_fresh p (f : nat -> Task) ns :
  (forall num, p (f num) = false) -> tally p (map f ns) = 0.
Proof.
  intros H. induction ns as [|a ns IH]; simpl; [reflexivity|].
  rewrite H, IH. reflexivity.
Qed.

Lemma finish_pool_ok size s num t r now :
  tasks s !! num = Some t -> holds_permit t = true ->
  pool_ok size s -> pool_ok size (fst (finish s num t r now)).
Proof.
  intros Ht Hh [Hsum Hpos]. unfold finish.
  destruct (handle_response (self s) (locals t) r now); simpl;
    unfold pool_ok, permits_held, set_task; simpl;
    rewrite (tally_insert _ _ _ _ _ Ht), Hh; simpl;
    unfold permits_held in Hsum; lia.
Qed.

Lemma step_pool_ok size s ev s' notes :
  step s ev = Some (s', notes) -> pool_ok size s -> pool_ok size s'.
Proof.
  intros Hstep Hok. pose proof Hok as [Hsum Hpos].
  unfold permits_held in Hsum. destruct ev as [num|num r now|num e|num now];
    simpl in Hstep;
    destruct (tasks s !! num) as [[[| |r'|e'] l]|] eqn:Ht; try discriminate.
  - destruct (permits s >? 0) eqn:Hp; [|discriminate].
    injection Hstep as <- _. apply Z.gtb_lt in Hp.
    unfold pool_ok, permits_held, set_task; simpl.
    rewrite (tally_insert _ _ _ _ _ Ht). simpl. lia.
  - destruct (permits s =? 0) eqn:Hp.
    + injection Hstep as <- _.
      unfold pool_ok, permits_held, set_task; simpl.
      rewrite (tally_insert _ _ _ _ _ Ht). simpl. lia.
    + pose proof (finish_pool_ok size s num _ r now Ht eq_refl Hok) as H.
      destruct (finish s num _ r now) as [s1 n1].
      injection Hstep as <- _. exact H.
  - injection Hstep as <- _.
    unfold pool_ok, permits_held, set_task; simpl.
    rewrite (tally_insert _ _ _ _ _ Ht). simpl. lia.
  - pose proof (finish_pool_ok size s num _ r' now Ht eq_refl Hok) as H.
    destruct (finish s num _ r' now) as [s1 n1].
    injection Hstep as <- _. exact H.
Qed.

Lemma run_pool_ok size evs : forall s s' notes,
  run s evs = Some (s', notes) -> pool_ok size s -> pool_ok size s'.
Proof.
  induction evs as [|ev evs IH]; intros s s' notes Hrun Hok; simpl in Hrun.
  - injection Hrun as <- _. exact Hok.
  - destruct (step s ev) as [[s1 n1]|] eqn:Hstep; [|discriminate].
    destruct (run s1 evs) as [[s2 n2]|] eqn:Hrest; [|discriminate].
    injection Hrun as <- _.
    eapply IH; [exact Hrest|]. eapply step_pool_ok; eauto.
Qed.

Lemma boot_pool_ok m t0 s0 :
  boot m t0 = Some s0 -> pool_ok (semaphores m) s0.
Proof.
  unfold boot. destruct (semaphores m <? 0) eqn:Hn; [discriminate|].
  intros H. injection H as <-. apply Z.ltb_ge in Hn.
  unfold pool_ok, permits_held. simpl.
  rewrite tally_fresh by reflexivity. lia.
Qed.

Lemma step_length s ev s' notes :
  step s ev = Some (s', notes) -> length (tasks s') = length (tasks s).
Proof.
  intros Hstep. destruct ev as [num|num r now|num e|num now];
    simpl in Hstep;
    destruct (tasks s !! num) as [[[| |r'|e'] l]|]; try discriminate.
  - destruct (permits s >? 0); [|discriminate].
    injection Hstep as <- _. apply length_insert.
  - destruct (permits s =? 0).
    + injection Hstep as <- _. apply length_insert.
    + unfold finish in Hstep.
      destruct (handle_response _ _ r now); injection Hstep as <- _;
        apply length_insert.
  - injection Hstep as <- _. apply length_insert.
  - unfold finish in Hstep.
    destruct (handle_response _ _ r' now); injection Hstep as <- _;
      apply length_insert.
Qed.

Lemma run_length evs : forall s s' notes,
  run s evs = Some (s', notes) -> length (tasks s') = length (tasks s).
Proof.
  induction evs as [|ev evs IH]; intros s s' notes Hrun; simpl in Hrun.
  - injection Hrun as <- _. reflexivity.
  - destruct (step s ev) as [[s1 n1]|] eqn:Hstep; [|discriminate].
    destruct (run s1 evs) as [[s2 n2]|] eqn:Hrest; [|discriminate].
    injection Hrun as <- _.
    rewrite (IH _ _ _ Hrest). eapply step_length, Hstep.
Qed.

Lemma tally_exclusive (p q : Task -> bool) ts :
  (forall t, p t = true -> q t = false) ->
  tally p ts + tally q ts <= Z.of_nat (length ts).
Proof.
  intros Hpq. induction ts as [|a ts IH]; simpl length; simpl tally; [lia|].
  pose proof (Hpq a) as Ha.
  destruct (p a), (q a); first [lia | discriminate (Ha eq_refl)].
Qed.

Lemma tally_nonneg p ts : 0 <= tally p ts.
Proof. induction ts as [|a ts IH]; simpl; [lia|]. destruct (p a); lia. Qed.

Lemma tally_member p ts : forall num t,
  ts !! num = Some t -> p t = true -> 1 <= tally p ts.
Proof.
  induction ts as [|a ts IH]; intros [|num] t H Hp; simpl in *;
    try discriminate.
  - injection H as ->. rewrite Hp. pose proof (tally_nonneg p ts). lia.
  - pose proof (IH num t H Hp). destruct (p a); lia.
Qed.

(** X9: with as many permits as tasks, a task that asks for a permit is
    never kept waiting: the semaphore has no waiters, so that [locked()] is
    [_value == 0]. *)
Lemma acquire_never_blocks m t0 s0 evs s notes num l :
  boot m t0 = Some s0 ->
  run s0 evs = Some (s, notes) ->
  tasks s !! num = Some {| pc := AtAcquire; locals := l |} ->
  step s (Acquire num) =
  Some ({| self := self s; permits := permits s - 1;
           tasks := set_task s num {| pc := InGet; locals := l |} |}, []).
Proof.
  intros Hboot Hrun Ht.
  destruct (run_pool_ok (semaphores m) evs s0 s notes Hrun
              (boot_pool_ok m t0 s0 Hboot)) as [Hsum _].
  pose proof (run_length evs s0 s notes Hrun) as Hlen.
  assert (Hlen0 : Z.of_nat (length (tasks s0)) = semaphores m).
  { unfold boot in Hboot. destruct (semaphores m <? 0) eqn:Hn; [discriminate|].
    injection Hboot as <-. apply Z.ltb_ge in Hn. simpl.
    rewrite length_map, length_seq. lia. }
  pose proof (tally_exclusive holds_permit at_acquire (tasks s)) as Hex.
  pose proof (tally_member at_acquire (tasks s) num _ Ht eq_refl) as Hone.
  unfold permits_held in Hsum. simpl. rewrite Ht.
  destruct (Z.gtb_spec (permits s) 0) as [_|Hle]; [reflexivity|].
  exfalso.
  assert (tally holds_permit (tasks s) + tally at_acquire (tasks s)
          <= Z.of_nat (length (tasks s))).
  { apply Hex. intros t. unfold holds_permit, at_acquire.
    destruct (pc t); auto. }
  lia.
Qed.

(** ** The running system and the sequence of evaluations *)

Lemma lookup_map_locals ts : forall num t,
  ts !! num = Some t -> map locals ts !! num = Some (locals t).
Proof.
  induction ts as [|a ts IH]; intros [|num] t H; simpl in *;
    try discriminate.
  - injection H as ->. reflexivity.
  - apply IH, H.
Qed.

Lemma map_locals_insert ts : forall num t',
  map locals (<[num := t']> ts) = <[num := locals t']> (map locals ts).
Proof.
  induction ts as [|a ts IH]; intros [|num] t'; simpl; try reflexivity.
  f_equal. apply IH.
Qed.

Lemma map_locals_retag ts num t t' :
  ts !! num = Some t -> locals t' = locals t ->
  map locals (<[num := t']> ts) = map locals ts.
Proof.
  intros H Hl. rewrite map_locals_insert, Hl.
  apply list_insert_id, lookup_map_locals, H.
Qed.

Lemma finish_refines_fleet s num t r now :
  tasks s !! num = Some t ->
  (fleet_of (fst (finish s num t r now)) = fleet_of s /\
   snd (finish s num t r now) = []) \/
  (exists temp,
     Fleet.apply (fleet_of s) (Fleet.Sample num temp now) =
     (fleet_of (fst (finish s num t r now)), snd (finish s num t r now))).
Proof.
  intros Ht. unfold finish, handle_response.
  destruct (status_code r =? OK).
  - destruct (parsed <- parse_weather r;; as_number (fst parsed))
      as [temp|e].
    + right. exists temp. simpl.
      rewrite (lookup_map_locals _ _ _ Ht).
      destruct (evaluate (self s) (locals t) temp now) as [[s' l'] ns].
      simpl. unfold fleet_of, set_task. simpl.
      rewrite map_locals_insert. reflexivity.
    + left. unfold fleet_of, set_task. simpl.
      rewrite (map_locals_retag _ _ t) by auto. auto.
  - left. unfold fleet_of, set_task. simpl.
    rewrite (map_locals_retag _ _ t) by auto. auto.
Qed.

(** Every resumption of a task either leaves the monitor and all locals as
    they are and notifies nothing, or is the evaluation of one sample. *)
Lemma step_refines_fleet s ev s' notes :
  step s ev = Some (s', notes) ->
  (fleet_of s' = fleet_of s /\ notes = []) \/
  (exists num temp now,
     Fleet.apply (fleet_of s) (Fleet.Sample num temp now) =
     (fleet_of s', notes)).
Proof.
  intros Hstep. destruct ev as [num|num r now|num e|num now];
    simpl in Hstep;
    destruct (tasks s !! num) as [[[| |r'|e'] l]|] eqn:Ht; try discriminate.
  - destruct (permits s >? 0); [|discriminate].
    injection Hstep as <- <-. left. unfold fleet_of, set_task. simpl.
    rewrite (map_locals_retag _ _ _ _ Ht) by auto. auto.
  - destruct (permits s =? 0).
    + injection Hstep as <- <-. left. unfold fleet_of, set_task. simpl.
      rewrite (map_locals_retag _ _ _ _ Ht) by auto. auto.
    + destruct (finish_refines_fleet s num _ r now Ht) as [H|[temp H]];
        destruct (finish s num _ r now) as [s1 n1];
        injection Hstep as <- <-; [left; exact H|right; eauto].
  - injection Hstep as <- <-. left. unfold fleet_of, set_task. simpl.
    rewrite (map_locals_retag _ _ _ _ Ht) by auto. auto.
  - destruct (finish_refines_fleet s num _ r' now Ht) as [H|[temp H]];
      destruct (finish s num _ r' now) as [s1 n1];
      injection Hstep as <- <-; [left; exact H|right; eauto].
Qed.

(** C8: in the system [parse_cmdline] starts, after any sequence of
    resumptions the number of requests sent and not yet answered is at most
    [semaphores]: every task inside [client.get] holds a permit, and the
    permits left and the permits held always add up to the pool. *)
Theorem permit_bound m t0 s0 evs s notes :
  boot m t0 = Some s0 ->
  run s0 evs = Some (s, notes) ->
  outstanding s <= semaphores m /\
  outstanding s <= permits_held s /\
  permits s + permits_held s = semaphores m /\
  0 <= permits s.
Proof.
  intros Hboot Hrun.
  destruct (run_pool_ok (semaphores m) evs s0 s notes Hrun
              (boot_pool_ok m t0 s0 Hboot)) as [Hsum Hpos].
  assert (Hle : outstanding s <= permits_held s).
  { apply tally_le. intros t. unfold in_get, holds_permit.
    destruct (pc t); auto. }
  repeat split; auto. lia.
Qed.

Lemma permit_bound_witness :
  outstanding
    {| self := init_monitor; permits := 0;
       tasks := [{| pc := InGet; locals := init_locals 0 |};
                 {| pc := InGet; locals := init_locals 0 |}] |} <= 2.
Proof.
  apply (permit_bound init_monitor (fun _ => 0%Q)
           {| self := init_monitor; permits := 2;
              tasks := [{| pc := AtAcquire; locals := init_locals 0 |};
                        {| pc := AtAcquire; locals := init_locals 0 |}] |}
           [Acquire 0; Acquire 1] _ []).
  - reflexivity.
  - reflexivity.
Defined.

(** ** The shared counter in the running system *)

Lemma step_count_nonneg s ev s' notes :
  step s ev = Some (s', notes) -> 0 <= count (self s) -> 0 <= count (self s').
Proof.
  intros Hstep H.
  destruct (step_refines_fleet s ev s' notes Hstep)
    as [[Heq _]|(num & temp & now & Happ)].
  - change (self s') with (Fleet.self (fleet_of s')). rewrite Heq. exact H.
  - pose proof (fleet_apply_count_nonneg (fleet_of s)
                  (Fleet.Sample num temp now) H) as H'.
    rewrite Happ in H'. exact H'.
Qed.

Lemma run_count_nonneg evs : forall s s' notes,
  run s evs = Some (s', notes) -> 0 <= count (self s) -> 0 <= count (self s').
Proof.
  induction evs as [|ev evs IH]; intros s s' notes Hrun H; simpl in Hrun.
  - injection Hrun as <- _. exact H.
  - destruct (step s ev) as [[s1 n1]|] eqn:Hstep; [|discriminate].
    destruct (run s1 evs) as [[s2 n2]|] eqn:Hrest; [|discriminate].
    injection Hrun as <- _.
    eapply IH; [exact Hrest|]. eapply step_count_nonneg; eauto.
Qed.

(** C10: [self.count] is never negative.  [counter] keeps it so (a
    subtraction happens only above 0), an evaluation keeps it so (it adds
    one, or assigns 0 or 1), and so does every sequence of [counter] calls
    and evaluations by any tasks from the initial value 0, as well as every
    run of the system [parse_cmdline] starts. *)
Theorem count_never_negative :
  (forall self subtract,
     0 <= count self -> 0 <= count (counter self subtract)) /\
  (forall self l temp now,
     0 <= count self -> 0 <= count (fst (fst (evaluate self l temp now)))) /\
  (forall m t0 n ops,
     count m = 0 ->
     0 <= count (Fleet.self (fst (Fleet.run (Fleet.fresh m t0 n) ops)))) /\
  (forall m t0 s0 evs s notes,
     count m = 0 -> boot m t0 = Some s0 -> run s0 evs = Some (s, notes) ->
     0 <= count (self s)).
Proof.
  split; [exact counter_nonneg|]. split; [exact evaluate_count_nonneg|].
  split.
  - intros m t0 n ops H0. apply fleet_run_count_nonneg. simpl. lia.
  - intros m t0 s0 evs s notes H0 Hboot Hrun.
    apply (run_count_nonneg evs s0 s notes Hrun).
    unfold boot in Hboot. destruct (semaphores m <? 0); [discriminate|].
    injection Hboot as <-. simpl. lia.
Qed.

Lemma count_never_negative_witness :
  0 <= count (counter init_monitor true) /\
  0 <= count (Fleet.self (fst (Fleet.run
            (Fleet.fresh init_monitor (fun _ => 0%Q) 2)
            [Fleet.CallCounter true; Fleet.Sample 0 95 1;
             Fleet.CallCounter true; Fleet.CallCounter true;
             Fleet.Sample 1 80 2]))).
Proof.
  split.
  - apply (proj1 count_never_negative init_monitor true). simpl. lia.
  - apply (proj1 (proj2 (proj2 count_never_negative))
             init_monitor (fun _ => 0%Q) 2%nat).
    reflexivity.
Defined.

(** ** The geolocation lookup *)

Import Geo.

(** C9: for every zip code, [set_location] returns [False] and leaves
    [self] (so [lat] and [lon]) as it was when the request raises, when the
    status is not 200, or when the document lacks ['lat'] or ['lon']; it
    returns [True] with [lat] and [lon] set from the document otherwise. *)
Theorem set_location_spec geo self zip :
  (forall e, geo zip = Failed e -> set_location geo self zip = (false, self))
  /\
  (forall r, geo zip = Returned r -> status_code r <> OK ->
     set_location geo self zip = (false, self)) /\
  (forall r, geo zip = Returned r -> status_code r = OK ->
     member r "lat" = None \/ member r "lon" = None ->
     set_location geo self zip = (false, self)) /\
  (forall r la lo, geo zip = Returned r -> status_code r = OK ->
     member r "lat" = Some la -> member r "lon" = Some lo ->
     set_location geo self zip = (true, set_lat_lon self la lo) /\
     lat (snd (set_location geo self zip)) = la /\
     lon (snd (set_location geo self zip)) = lo).
Proof.
  assert (Hok : forall r la lo, geo zip = Returned r -> status_code r = OK ->
            member r "lat" = Some la -> member r "lon" = Some lo ->
            set_location geo self zip = (true, set_lat_lon self la lo)).
  { unfold set_location, member. intros r la lo -> Hs Hla Hlo. simpl.
    rewrite Hs. simpl. unfold json_of.
    destruct (json_body r) as [[| | | | |ms]|]; try discriminate.
    simpl. rewrite Hla, Hlo. reflexivity. }
  split; [|split; [|split]].
  - unfold set_location. intros e ->. reflexivity.
  - unfold set_location. intros r -> Hs. simpl.
    destruct (Z.eqb_spec (status_code r) OK); [contradiction|reflexivity].
  - unfold set_location, member. intros r -> Hs Hm. simpl.
    rewrite Hs. simpl. unfold json_of.
    destruct (json_body r) as [[| | | | |ms]|]; try reflexivity. simpl.
    destruct Hm as [Hm|Hm]; rewrite Hm; [reflexivity|].
    destruct (assoc "lat" ms); reflexivity.
  - intros r la lo Hg Hs Hla Hlo. rewrite (Hok r la lo Hg Hs Hla Hlo).
    repeat split.
Qed.

Lemma set_location_spec_witness :
  let found := {| status_code := 200;
                  json_body := Some (JObj [("zip"%string, JStr "11385");
                                           ("lat"%string, JNum (407 # 10));
                                           ("lon"%string, JNum (-739 # 10))]) |} in
  let no_lon := {| status_code := 200;
                   json_body := Some (JObj [("lat"%string, JNum (407 # 10))]) |} in
  let not_found := {| status_code := 404; json_body := Some (JObj []) |} in
  set_location (fun _ => Returned found) init_monitor 11385 =
    (true, set_lat_lon init_monitor (JNum (407 # 10)) (JNum (-739 # 10))) /\
  set_location (fun _ => Returned no_lon) init_monitor 11385 =
    (false, init_monitor) /\
  set_location (fun _ => Returned not_found) init_monitor 11385 =
    (false, init_monitor) /\
  set_location (fun _ => Failed TransportError) init_monitor 11385 =
    (false, init_monitor).
Proof.
  cbv zeta. split; [|split; [|split]].
  - eapply (proj2 (proj2 (proj2 (set_location_spec _ init_monitor 11385))));
      reflexivity.
  - eapply (proj1 (proj2 (proj2 (set_location_spec _ init_monitor 11385))));
      [reflexivity | reflexivity | right; reflexivity].
  - eapply (proj1 (proj2 (set_location_spec _ init_monitor 11385)));
      [reflexivity | discriminate].
  - eapply (proj1 (set_location_spec _ init_monitor 11385)). reflexivity.
Defined.

(** * Further properties *)

(** ** What an evaluation keeps *)

Lemma fleet_run_preserves (P : Locals -> Prop) :
  (forall m l temp now, P l -> P (snd (fst (evaluate m l temp now)))) ->
  forall ops st,
    Forall P (Fleet.tasks st) ->
    Forall P (Fleet.tasks (fst (Fleet.run st ops))).
Proof.
  intros HP. induction ops as [|op ops IH]; intros st Hst; simpl; [exact Hst|].
  assert (H1 : Forall P (Fleet.tasks (fst (Fleet.apply st op)))).
  { destruct op as [subtract|num temp now]; simpl; [exact Hst|].
    destruct (Fleet.tasks st !! num) as [l|] eqn:El; [|exact Hst].
    pose proof (HP (Fleet.self st) l temp now
                  (Forall_lookup_1 _ _ _ _ Hst El)) as Hl.
    destruct (evaluate (Fleet.self st) l temp now) as [[m' l'] notes].
    simpl in *. apply Forall_insert; assumption. }
  destruct (Fleet.apply st op) as [st1 n1]. simpl in H1.
  specialize (IH st1 H1). destruct (Fleet.run st1 ops) as [st2 n2].
  exact IH.
Qed.

Lemma evaluate_phase_defined m l temp now :
  phase l <> None -> phase (snd (fst (evaluate m l temp now))) <> None.
Proof.
  unfold evaluate, phase.
  destruct (Qgtb temp (threshold m)), (warning l) eqn:Hw,
    (clearing l) eqn:Hc, (fired l); simpl; try congruence;
    destruct (slo_elapsed (counter m false) l now); simpl;
    rewrite ?Hw, ?Hc; try congruence;
    destruct (dense (counter m false)); simpl; rewrite ?Hw, ?Hc; congruence.
Qed.

(** X1: [warning] and [clearing] are never both true.  An evaluation keeps
    the two flags exclusive, so every task of every run from the initial
    state is in one of the three phases. *)
Theorem phase_always_defined :
  (forall m l temp now,
     phase l <> None -> phase (snd (fst (evaluate m l temp now))) <> None) /\
  (forall m t0 n ops,
     Forall (fun l => phase l <> None)
       (Fleet.tasks (fst (Fleet.run (Fleet.fresh m t0 n) ops)))).
Proof.
  split; [exact evaluate_phase_defined|].
  intros m t0 n ops.
  apply (fleet_run_preserves _ evaluate_phase_defined).
  eapply Forall_impl; [apply (fresh_idle m t0 n)|].
  intros l (Hw & Hc & _). unfold phase. rewrite Hw, Hc. discriminate.
Qed.

Lemma phase_always_defined_witness :
  phase (snd (fst (evaluate init_monitor
                     {| start := 0; warning := false; clearing := true;
                        fired := true |} 95 7))) <> None.
Proof.
  apply (proj1 phase_always_defined). discriminate.
Defined.

(** X2: an evaluation hands at most one message to [notify].  When it does,
    the message is the breach one exactly for a sample above the threshold,
    it reports the sample's temperature and the incremented counter, which
    is above the density floor as binary64 gives it, the reading of the
    clock that was tested is more than [slo] seconds after [start], a clear
    message comes only from a task that had fired, and the counter is 0
    afterwards. *)
Theorem notification_shape m l temp now n :
  In n (snd (evaluate m l temp now)) ->
  snd (evaluate m l temp now) = [n] /\
  (severity n = Breach <-> (threshold m < temp)%Q) /\
  (severity n = Clear -> fired l = true) /\
  note_count n = count m + 1 /\
  note_temp n = temp /\
  (inject_Z (slo m) < now - start l)%Q /\
  (density_floor m < inject_Z (note_count n))%Q /\
  count (fst (fst (evaluate m l temp now))) = 0.
Proof.
  unfold evaluate.
  destruct (Qgtb temp (threshold m)) eqn:Ht.
  - apply Qgtb_true in Ht.
    destruct (warning l); simpl; [|intros []].
    destruct (slo_elapsed (counter m false) l now) eqn:He; simpl;
      [|intros []].
    destruct (dense (counter m false)) eqn:Hd; simpl; [|intros []].
    intros [<-|[]]. simpl. apply slo_elapsed_true in He.
    apply dense_counter_true in Hd.
    repeat split; auto; discriminate.
  - apply Qgtb_false in Ht.
    destruct (warning l), (clearing l); simpl; try (intros []);
      try (destruct (fired l); intros []).
    + destruct (slo_elapsed (counter m false) l now) eqn:He; simpl;
        [|destruct (fired l); intros []].
      destruct (dense (counter m false)) eqn:Hd; simpl;
        [|destruct (fired l); intros []].
      destruct (fired l); simpl; [|intros []].
      intros [<-|[]]. simpl. apply slo_elapsed_true in He.
      apply dense_counter_true in Hd.
      repeat split; auto; try discriminate.
      intros Hlt. exfalso. apply (Qlt_not_le _ _ Hlt Ht).
    + destruct (slo_elapsed (counter m false) l now) eqn:He; simpl;
        [|destruct (fired l); intros []].
      destruct (dense (counter m false)) eqn:Hd; simpl;
        [|destruct (fired l); intros []].
      destruct (fired l); simpl; [|intros []].
      intros [<-|[]]. simpl. apply slo_elapsed_true in He.
      apply dense_counter_true in Hd.
      repeat split; auto; try discriminate.
      intros Hlt. exfalso. apply (Qlt_not_le _ _ Hlt Ht).
Qed.

Lemma notification_shape_witness :
  let m := {| threshold := 90; slo := 82; lon := JNull; lat := JNull;
              semaphores := 15; count := 121 |} in
  note_count (mkNote Breach 122 95) = count m + 1 /\
  (density_floor m < inject_Z (note_count (mkNote Breach 122 95)))%Q.
Proof.
  cbv zeta.
  pose proof (notification_shape
                {| threshold := 90; slo := 82; lon := JNull; lat := JNull;
                   semaphores := 15; count := 121 |}
                {| start := 0; warning := true; clearing := false;
                   fired := false |} 95 100
                (mkNote Breach 122 95)
                (or_introl eq_refl)) as H.
  split; [apply H|apply H].
Defined.

(** ** Clear notifications never outnumber breach notifications *)

Import Counting.

Lemma notes_of_app s ns ns' :
  notes_of s (ns ++ ns') = notes_of s ns + notes_of s ns'.
Proof.
  induction ns as [|n ns IH]; simpl; [reflexivity|]. rewrite IH. lia.
Qed.

Lemma fired_tasks_insert ls : forall num l l',
  ls !! num = Some l ->
  fired_tasks (<[num := l']> ls) =
  fired_tasks ls - (if fired l then 1 else 0) + (if fired l' then 1 else 0).
Proof.
  induction ls as [|a ls IH]; intros [|num] l l' H; simpl in *;
    try discriminate.
  - injection H as ->. lia.
  - rewrite (IH num l l' H). lia.
Qed.

(** One evaluation: a clear message uses up the task's [fired], a breach
    message sets it. *)
Lemma evaluate_balance m l temp now :
  notes_of Clear (snd (evaluate m l temp now)) +
  (if fired (snd (fst (evaluate m l temp now))) then 1 else 0) <=
  notes_of Breach (snd (evaluate m l temp now)) +
  (if fired l then 1 else 0).
Proof.
  unfold evaluate.
  destruct (Qgtb temp (threshold m)), (warning l), (clearing l),
    (fired l) eqn:Hf; simpl; rewrite ?Hf; try lia;
    destruct (slo_elapsed (counter m false) l now); simpl; rewrite ?Hf;
    try lia;
    destruct (dense (counter m false)); simpl; rewrite ?Hf; simpl; lia.
Qed.

Lemma fleet_apply_balance st op :
  notes_of Clear (snd (Fleet.apply st op)) +
  fired_tasks (Fleet.tasks (fst (Fleet.apply st op))) <=
  notes_of Breach (snd (Fleet.apply st op)) + fired_tasks (Fleet.tasks st).
Proof.
  destruct op as [subtract|num temp now]; simpl; [lia|].
  destruct (Fleet.tasks st !! num) as [l|] eqn:El; simpl; [|lia].
  pose proof (evaluate_balance (Fleet.self st) l temp now) as H.
  destruct (evaluate (Fleet.self st) l temp now) as [[m' l'] notes].
  simpl in *. rewrite (fired_tasks_insert _ _ _ _ El). lia.
Qed.

Lemma fleet_run_balance ops : forall st,
  notes_of Clear (snd (Fleet.run st ops)) +
  fired_tasks (Fleet.tasks (fst (Fleet.run st ops))) <=
  notes_of Breach (snd (Fleet.run st ops)) + fired_tasks (Fleet.tasks st).
Proof.
  induction ops as [|op ops IH]; intros st; simpl; [lia|].
  pose proof (fleet_apply_balance st op) as H1.
  destruct (Fleet.apply st op) as [st1 n1]. simpl in H1.
  specialize (IH st1). destruct (Fleet.run st1 ops) as [st2 n2].
  simpl in *. rewrite !notes_of_app. lia.
Qed.

Lemma fired_tasks_nonneg ls : 0 <= fired_tasks ls.
Proof.
  induction ls as [|l ls IH]; simpl; [lia|]. destruct (fired l); lia.
Qed.

Lemma step_balance s ev s' notes :
  step s ev = Some (s', notes) ->
  notes_of Clear notes + fired_tasks (map locals (tasks s')) <=
  notes_of Breach notes + fired_tasks (map locals (tasks s)).
Proof.
  intros Hstep.
  destruct (step_refines_fleet s ev s' notes Hstep)
    as [[Heq ->]|(num & temp & now & Happ)].
  - change (map locals (tasks s')) with (Fleet.tasks (fleet_of s')).
    rewrite Heq. simpl. lia.
  - pose proof (fleet_apply_balance (fleet_of s)
                  (Fleet.Sample num temp now)) as H.
    rewrite Happ in H. exact H.
Qed.

Lemma run_balance evs : forall s s' notes,
  run s evs = Some (s', notes) ->
  notes_of Clear notes + fired_tasks (map locals (tasks s')) <=
  notes_of Breach notes + fired_tasks (map locals (tasks s)).
Proof.
  induction evs as [|ev evs IH]; intros s s' notes Hrun; simpl in Hrun.
  - injection Hrun as <- <-. simpl. lia.
  - destruct (step s ev) as [[s1 n1]|] eqn:Hstep; [|discriminate].
    destruct (run s1 evs) as [[s2 n2]|] eqn:Hrest; [|discriminate].
    injection Hrun as <- <-.
    pose proof (step_balance _ _ _ _ Hstep).
    pose proof (IH _ _ _ Hrest). rewrite !notes_of_app. lia.
Qed.

Lemma fired_tasks_fresh (f : nat -> Q) ns :
  fired_tasks (map (fun num => init_locals (f num)) ns) = 0.
Proof. induction ns as [|a ns IH]; simpl; [reflexivity|exact IH]. Qed.

(** X3: along every sequence of evaluations from the initial state, and
    along every run of the system [parse_cmdline] starts, the clear messages
    sent so far are at most as many as the breach messages sent so far: a
    task sends a clear message only after a breach message of its own that
    it has not yet answered. *)
Theorem clears_never_outnumber_breaches :
  (forall m t0 n ops,
     notes_of Clear (snd (Fleet.run (Fleet.fresh m t0 n) ops)) <=
     notes_of Breach (snd (Fleet.run (Fleet.fresh m t0 n) ops))) /\
  (forall m t0 s0 evs s notes,
     boot m t0 = Some s0 -> run s0 evs = Some (s, notes) ->
     notes_of Clear notes <= notes_of Breach notes).
Proof.
  split.
  - intros m t0 n ops.
    pose proof (fleet_run_balance ops (Fleet.fresh m t0 n)) as H.
    pose proof (fired_tasks_nonneg
                  (Fleet.tasks (fst (Fleet.run (Fleet.fresh m t0 n) ops)))).
    assert (Hz : fired_tasks (Fleet.tasks (Fleet.fresh m t0 n)) = 0)
      by apply fired_tasks_fresh.
    rewrite Hz in H. lia.
  - intros m t0 s0 evs s notes Hboot Hrun.
    pose proof (run_balance evs s0 s notes Hrun) as H.
    pose proof (fired_tasks_nonneg (map locals (tasks s))).
    unfold boot in Hboot. destruct (semaphores m <? 0); [discriminate|].
    injection Hboot as <-. simpl tasks in H. rewrite map_map in H.
    assert (Hz : fired_tasks
                   (map (fun num => locals {| pc := AtAcquire;
                                              locals := init_locals (t0 num) |})
                      (seq 0 (Z.to_nat (semaphores m)))) = 0)
      by apply fired_tasks_fresh.
    rewrite Hz in H. lia.
Qed.

Lemma clears_never_outnumber_breaches_witness :
  notes_of Clear [mkNote Breach 2 95; mkNote Clear 2 80] <=
  notes_of Breach [mkNote Breach 2 95; mkNote Clear 2 80].
Proof.
  apply (proj2 clears_never_outnumber_breaches small_monitor (fun _ => 0%Q)
           {| self := small_monitor; permits := 1;
              tasks := [{| pc := AtAcquire; locals := init_locals 0 |}] |}
           breach_then_clear
           {| self := small_monitor; permits := 1;
              tasks := [{| pc := AtAcquire;
                           locals := {| start := 50; warning := false;
                                        clearing := false;
                                        fired := false |} |}] |}
           [mkNote Breach 2 95; mkNote Clear 2 80]).
  - reflexivity.
  - vm_compute. reflexivity.
Defined.

(** ** Notifying again while the breach lasts *)






(** ** What monitoring never writes *)

Lemma evaluate_frame m l temp now :
  set_count (fst (fst (evaluate m l temp now))) (count m) = m.
Proof.
  unfold evaluate.
  destruct (Qgtb temp (threshold m)), (warning l), (clearing l), (fired l);
    simpl; try (destruct m; reflexivity);
    destruct (slo_elapsed (counter m false) l now); simpl;
    try (destruct m; reflexivity);
    destruct (dense (counter m false)); destruct m; reflexivity.
Qed.

Lemma frame_step m m' c :
  set_count m' (count m) = m -> set_count m' c = set_count m c.
Proof. intros <-. reflexivity. Qed.

Lemma fleet_apply_frame st op :
  set_count (Fleet.self (fst (Fleet.apply st op))) (count (Fleet.self st)) =
  Fleet.self st.
Proof.
  destruct op as [subtract|num temp now]; simpl.
  - unfold counter. destruct subtract; simpl.
    + destruct (count (Fleet.self st) >? 0); simpl;
        destruct (Fleet.self st); reflexivity.
    + destruct (Fleet.self st); reflexivity.
  - destruct (Fleet.tasks st !! num) as [l|]; simpl;
      [|apply set_count_same].
    pose proof (evaluate_frame (Fleet.self st) l temp now) as H.
    destruct (evaluate (Fleet.self st) l temp now) as [[m' l'] notes].
    exact H.
Qed.

Lemma fleet_run_frame ops : forall st,
  set_count (Fleet.self (fst (Fleet.run st ops))) (count (Fleet.self st)) =
  Fleet.self st.
Proof.
  induction ops as [|op ops IH]; intros st; simpl; [apply set_count_same|].
  pose proof (fleet_apply_frame st op) as H1.
  destruct (Fleet.apply st op) as [st1 n1]. simpl in H1.
  specialize (IH st1). destruct (Fleet.run st1 ops) as [st2 n2]. simpl in *.
  rewrite (frame_step _ _ _ IH). exact H1.
Qed.

Lemma run_frame evs : forall s s' notes,
  run s evs = Some (s', notes) ->
  set_count (self s') (count (self s)) = self s.
Proof.
  induction evs as [|ev evs IH]; intros s s' notes Hrun; simpl in Hrun.
  - injection Hrun as <- _. apply set_count_same.
  - destruct (step s ev) as [[s1 n1]|] eqn:Hstep; [|discriminate].
    destruct (run s1 evs) as [[s2 n2]|] eqn:Hrest; [|discriminate].
    injection Hrun as <- _.
    assert (H1 : set_count (self s1) (count (self s)) = self s).
    { destruct (step_refines_fleet s ev s1 n1 Hstep)
        as [[Heq _]|(num & temp & now & Happ)].
      - change (self s1) with (Fleet.self (fleet_of s1)). rewrite Heq.
        apply set_count_same.
      - pose proof (fleet_apply_frame (fleet_of s)
                      (Fleet.Sample num temp now)) as H.
        rewrite Happ in H. exact H. }
    pose proof (IH _ _ _ Hrest) as H2.
    rewrite (frame_step _ _ _ H2). exact H1.
Qed.

Lemma frame_fields m m' :
  set_count m' (count m) = m ->
  threshold m' = threshold m /\ slo m' = slo m /\
  semaphores m' = semaphores m /\ lat m' = lat m /\ lon m' = lon m.
Proof.
  destruct m, m'. unfold set_count. simpl. intros H.
  injection H as -> -> -> -> ->. repeat split.
Qed.

(** X5: polling and evaluating write nothing of the monitor but its
    counter.  After any sequence of [counter] calls and evaluations, and
    after any run of the started system, [threshold], [slo], [semaphores],
    [lat] and [lon] are what they were. *)
Theorem monitoring_writes_only_count :
  (forall st ops,
     let m := Fleet.self st in
     let m' := Fleet.self (fst (Fleet.run st ops)) in
     threshold m' = threshold m /\ slo m' = slo m /\
     semaphores m' = semaphores m /\ lat m' = lat m /\ lon m' = lon m) /\
  (forall s evs s' notes,
     run s evs = Some (s', notes) ->
     threshold (self s') = threshold (self s) /\
     slo (self s') = slo (self s) /\
     semaphores (self s') = semaphores (self s) /\
     lat (self s') = lat (self s) /\ lon (self s') = lon (self s)).
Proof.
  split.
  - intros st ops. cbv zeta. apply frame_fields, fleet_run_frame.
  - intros s evs s' notes Hrun. eapply frame_fields, run_frame, Hrun.
Qed.

Lemma monitoring_writes_only_count_witness :
  let m' := set_count small_monitor 1 in
  threshold m' = threshold small_monitor /\
  slo m' = slo small_monitor /\
  semaphores m' = semaphores small_monitor /\
  lat m' = lat small_monitor /\ lon m' = lon small_monitor.
Proof.
  cbv zeta.
  apply (proj2 monitoring_writes_only_count
           {| self := small_monitor; permits := 1;
              tasks := [{| pc := AtAcquire; locals := init_locals 0 |}] |}
           breach_then_dip
           {| self := set_count small_monitor 1; permits := 1;
              tasks := [{| pc := AtAcquire;
                           locals := {| start := 50; warning := false;
                                        clearing := true;
                                        fired := true |} |}] |}
           [mkNote Breach 2 95]).
  vm_compute. reflexivity.
Defined.

(** ** The one-shot check *)

(** X6: [get_blocking_weather] catches every failure of the request, of the
    status and of the document's structure and returns [False] for it, but
    the comparison with the threshold is outside its [try]: a temperature
    that is not a number leaves it as [TypeError], the only exception it can
    raise.  It notifies at most once, only with a temperature above the
    threshold, and never when it returns [False]. *)
Theorem blocking_weather_outcomes m p :
  (forall e, get_blocking_weather m p = Raise e -> e = TypeError) /\
  (forall b ns,
     get_blocking_weather m p = Ok (b, ns) ->
     (b = false -> ns = []) /\
     (length ns <= 1)%nat /\
     Forall (fun t => (threshold m < t)%Q) ns) /\
  (forall r s name,
     p = Returned r -> status_code r = OK ->
     parse_weather r = Ok (JStr s, name) ->
     get_blocking_weather m p = Raise TypeError) /\
  (forall r e,
     p = Failed e \/
     p = Returned r /\ (status_code r <> OK \/ parse_weather r = Raise e) ->
     get_blocking_weather m p = Ok (false, [])).
Proof.
  unfold get_blocking_weather. repeat split.
  - intros e. destruct p as [r|e']; simpl; [|discriminate].
    destruct (status_code r =? OK); simpl; [|discriminate].
    destruct (parse_weather r) as [[temp name]|e']; [|discriminate].
    destruct temp; simpl; try (intros H; injection H as <-; reflexivity);
      destruct (Qgtb _ (threshold m)); discriminate.
  - revert H. destruct p as [r|e']; simpl;
      [|intros H; injection H as <- <-; reflexivity].
    destruct (status_code r =? OK); simpl;
      [|intros H; injection H as <- <-; reflexivity].
    destruct (parse_weather r) as [[temp name]|e'];
      [|intros H; injection H as <- <-; reflexivity].
    destruct temp; simpl; try discriminate;
      destruct (Qgtb _ (threshold m)); intros H; injection H as <- <-;
      discriminate.
  - revert H. destruct p as [r|e']; simpl;
      [|intros H; injection H as <- <-; simpl; lia].
    destruct (status_code r =? OK); simpl;
      [|intros H; injection H as <- <-; simpl; lia].
    destruct (parse_weather r) as [[temp name]|e'];
      [|intros H; injection H as <- <-; simpl; lia].
    destruct temp; simpl; try discriminate;
      destruct (Qgtb _ (threshold m)); intros H; injection H as <- <-;
      simpl; lia.
  - revert H. destruct p as [r|e']; simpl;
      [|intros H; injection H as <- <-; constructor].
    destruct (status_code r =? OK); simpl;
      [|intros H; injection H as <- <-; constructor].
    destruct (parse_weather r) as [[temp name]|e'];
      [|intros H; injection H as <- <-; constructor].
    destruct temp; simpl; try discriminate;
      destruct (Qgtb _ (threshold m)) eqn:Ht; intros H;
      injection H as <- <-; repeat constructor;
      apply Qgtb_true in Ht; exact Ht.
  - intros r s name -> Hs Hp. simpl. rewrite Hs, Hp. reflexivity.
  - intros r e [->|[-> [Hs|Hp]]]; simpl; [reflexivity| |].
    + destruct (Z.eqb_spec (status_code r) OK); [contradiction|reflexivity].
    + destruct (status_code r =? OK); simpl; [|reflexivity].
      rewrite Hp. reflexivity.
Qed.

Lemma blocking_weather_outcomes_witness :
  get_blocking_weather init_monitor
    (Returned {| status_code := 200;
                 json_body :=
                   Some (JObj [("main"%string,
                                JObj [("temp"%string, JStr "hot")]);
                               ("name"%string, JStr "Queens")]) |})
  = Raise TypeError /\
  get_blocking_weather init_monitor
    (Returned {| status_code := 500; json_body := None |}) = Ok (false, []).
Proof.
  split.
  - eapply (proj1 (proj2 (proj2 (blocking_weather_outcomes init_monitor _))));
      reflexivity.
  - eapply (proj2 (proj2 (proj2 (blocking_weather_outcomes init_monitor _)))
              _ TypeError).
    right. split; [reflexivity|]. left. discriminate.
Defined.

(** ** Tasks that have left their loop *)

Lemma step_keeps_exited s ev s' notes num e l :
  step s ev = Some (s', notes) ->
  tasks s !! num = Some {| pc := Exited e; locals := l |} ->
  tasks s' !! num = Some {| pc := Exited e; locals := l |}.
Proof.
  intros Hstep Hex.
  assert (Hins : forall num' t',
            tasks s !! num' <> Some {| pc := Exited e; locals := l |} ->
            <[num' := t']> (tasks s) !! num =
            Some {| pc := Exited e; locals := l |}).
  { intros num' t' Hne. rewrite list_lookup_insert_ne; [exact Hex|].
    intros ->. contradiction. }
  destruct ev as [num'|num' r now|num' e'|num' now]; simpl in Hstep;
    destruct (tasks s !! num') as [[[| |r'|e''] l']|] eqn:Ht;
    try discriminate.
  - destruct (permits s >? 0); [|discriminate].
    injection Hstep as <- _. apply Hins. rewrite Ht. discriminate.
  - destruct (permits s =? 0).
    + injection Hstep as <- _. apply Hins. rewrite Ht. discriminate.
    + unfold finish in Hstep.
      destruct (handle_response _ _ r now); injection Hstep as <- _;
        apply Hins; rewrite Ht; discriminate.
  - injection Hstep as <- _. apply Hins. rewrite Ht. discriminate.
  - unfold finish in Hstep.
    destruct (handle_response _ _ r' now); injection Hstep as <- _;
      apply Hins; rewrite Ht; discriminate.
Qed.

Lemma step_needs_live_task s ev :
  Forall (fun t => exists e, pc t = Exited e) (tasks s) -> step s ev = None.
Proof.
  intros Hall.
  assert (Hdead : forall num t, tasks s !! num = Some t ->
                                exists e, pc t = Exited e).
  { intros num t Ht. apply (Forall_lookup_1 _ _ _ _ Hall Ht). }
  destruct ev as [num|num r now|num e|num now]; simpl;
    destruct (tasks s !! num) as [[[| |r'|e'] l]|] eqn:Ht; try reflexivity;
    destruct (Hdead _ _ Ht) as [e0 H0]; discriminate H0.
Qed.

(** X7: a task that an exception has taken out of its loop stays out.
    Along every run it remains [Exited] with the same exception and the same
    locals, and once every task is out no event is enabled: the event loop
    keeps running with nothing left to poll. *)
Theorem exited_is_final :
  (forall evs s s' notes num e l,
     run s evs = Some (s', notes) ->
     tasks s !! num = Some {| pc := Exited e; locals := l |} ->
     tasks s' !! num = Some {| pc := Exited e; locals := l |}) /\
  (forall s ev,
     Forall (fun t => exists e, pc t = Exited e) (tasks s) ->
     step s ev = None).
Proof.
  split; [|exact step_needs_live_task].
  induction evs as [|ev evs IH]; intros s s' notes num e l Hrun Hex;
    simpl in Hrun.
  - injection Hrun as <- _. exact Hex.
  - destruct (step s ev) as [[s1 n1]|] eqn:Hstep; [|discriminate].
    destruct (run s1 evs) as [[s2 n2]|] eqn:Hrest; [|discriminate].
    injection Hrun as <- _.
    eapply IH; [exact Hrest|]. eapply step_keeps_exited; eauto.
Qed.

Lemma exited_is_final_witness :
  tasks {| self := init_monitor; permits := 1;
           tasks := [{| pc := Exited TimeoutException;
                        locals := init_locals 0 |};
                     {| pc := InGet; locals := init_locals 0 |}] |} !! 0%nat
  = Some {| pc := Exited TimeoutException; locals := init_locals 0 |} /\
  step {| self := init_monitor; permits := 2;
          tasks := [{| pc := Exited TimeoutException;
                       locals := init_locals 0 |};
                    {| pc := Exited (KeyError "main");
                       locals := init_locals 0 |}] |} (Acquire 1) = None.
Proof.
  split.
  - apply (proj1 exited_is_final [Acquire 1]
             {| self := init_monitor; permits := 2;
                tasks := [{| pc := Exited TimeoutException;
                             locals := init_locals 0 |};
                          {| pc := AtAcquire; locals := init_locals 0 |}] |}
             _ [] 0%nat TimeoutException (init_locals 0));
      reflexivity.
  - apply (proj2 exited_is_final). repeat constructor; eexists; reflexivity.
Defined.

(** ** The cooldown *)

Lemma tally_le_length p ts : tally p ts <= Z.of_nat (length ts).
Proof.
  induction ts as [|a ts IH]; simpl length; simpl tally; [lia|].
  destruct (p a); lia.
Qed.

Lemma tally_full p ts :
  tally p ts = Z.of_nat (length ts) <-> Forall (fun t => p t = true) ts.
Proof.
  induction ts as [|a ts IH]; simpl length; simpl tally.
  - split; [constructor|reflexivity].
  - pose proof (tally_le_length p ts). split.
    + intros H1. destruct (p a) eqn:Ha; [|lia].
      constructor; [exact Ha|]. apply IH. lia.
    + intros H1. inversion H1 as [|? ? Ha Hts]; subst.
      rewrite Ha. apply IH in Hts. lia.
Qed.

Lemma boot_length m t0 s0 :
  boot m t0 = Some s0 -> Z.of_nat (length (tasks s0)) = semaphores m.
Proof.
  unfold boot. destruct (semaphores m <? 0) eqn:Hn; [discriminate|].
  intros H. injection H as <-. apply Z.ltb_ge in Hn. simpl.
  rewrite length_map, length_seq. lia.
Qed.

(** X8: the ten-second cooldown.  In the started system the semaphore is
    locked exactly when every task is inside its [async with] block; a
    request that returns then is followed by the sleep before the response
    is looked at, and by the evaluation at once otherwise.  With one worker
    every answered request is followed by the sleep. *)
Theorem cooldown_when_all_tasks_busy m t0 s0 evs s notes num l r now :
  boot m t0 = Some s0 ->
  run s0 evs = Some (s, notes) ->
  tasks s !! num = Some {| pc := InGet; locals := l |} ->
  (permits s = 0 <-> Forall (fun t => holds_permit t = true) (tasks s)) /\
  (Forall (fun t => holds_permit t = true) (tasks s) ->
   step s (GetReturns num r now) =
   Some ({| self := self s; permits := permits s;
            tasks := set_task s num {| pc := InSleep r; locals := l |} |},
         [])) /\
  (~ Forall (fun t => holds_permit t = true) (tasks s) ->
   step s (GetReturns num r now) =
   Some (finish s num {| pc := InGet; locals := l |} r now)) /\
  (semaphores m = 1 ->
   step s (GetReturns num r now) =
   Some ({| self := self s; permits := permits s;
            tasks := set_task s num {| pc := InSleep r; locals := l |} |},
         [])).
Proof.
  intros Hboot Hrun Ht.
  destruct (run_pool_ok (semaphores m) evs s0 s notes Hrun
              (boot_pool_ok m t0 s0 Hboot)) as [Hsum Hpos].
  pose proof (run_length evs s0 s notes Hrun) as Hlen.
  pose proof (boot_length m t0 s0 Hboot) as Hlen0.
  unfold permits_held in Hsum.
  assert (Hiff : permits s = 0 <->
                 Forall (fun t => holds_permit t = true) (tasks s)).
  { rewrite <- tally_full. lia. }
  assert (Hsleep : permits s = 0 ->
            step s (GetReturns num r now) =
            Some ({| self := self s; permits := permits s;
                     tasks := set_task s num
                                {| pc := InSleep r; locals := l |} |}, [])).
  { intros H0. simpl. rewrite Ht, H0. reflexivity. }
  split; [exact Hiff|]. split; [|split].
  - intros Hall. apply Hsleep, Hiff, Hall.
  - intros Hnot. simpl. rewrite Ht.
    destruct (Z.eqb_spec (permits s) 0) as [H0|_]; [|reflexivity].
    exfalso. apply Hnot, Hiff, H0.
  - intros H1. apply Hsleep.
    pose proof (tally_member holds_permit (tasks s) num _ Ht eq_refl). lia.
Qed.

Lemma cooldown_when_all_tasks_busy_witness :
  step {| self := init_monitor; permits := 0;
          tasks := [{| pc := InGet; locals := init_locals 0 |};
                    {| pc := InGet; locals := init_locals 0 |}] |}
       (GetReturns 1 {| status_code := 200; json_body := None |} 3) =
  Some ({| self := init_monitor; permits := 0;
           tasks := [{| pc := InGet; locals := init_locals 0 |};
                     {| pc := InSleep {| status_code := 200;
                                         json_body := None |};
                        locals := init_locals 0 |}] |}, []).
Proof.
  apply (proj1 (proj2 (cooldown_when_all_tasks_busy
                         init_monitor (fun _ => 0%Q)
                         {| self := init_monitor; permits := 2;
                            tasks := [{| pc := AtAcquire;
                                         locals := init_locals 0 |};
                                      {| pc := AtAcquire;
                                         locals := init_locals 0 |}] |}
                         [Acquire 0; Acquire 1] _ [] 1%nat (init_locals 0)
                         {| status_code := 200; json_body := None |} 3%Q
                         eq_refl eq_refl eq_refl))).
  repeat constructor.
Defined.

Lemma acquire_never_blocks_witness :
  step {| self := init_monitor; permits := 1;
          tasks := [{| pc := InGet; locals := init_locals 0 |};
                    {| pc := AtAcquire; locals := init_locals 0 |}] |}
       (Acquire 1) =
  Some ({| self := init_monitor; permits := 0;
           tasks := [{| pc := InGet; locals := init_locals 0 |};
                     {| pc := InGet; locals := init_locals 0 |}] |}, []).
Proof.
  apply (acquire_never_blocks init_monitor (fun _ => 0%Q)
           {| self := init_monitor; permits := 2;
              tasks := [{| pc := AtAcquire; locals := init_locals 0 |};
                        {| pc := AtAcquire; locals := init_locals 0 |}] |}
           [Acquire 0] _ [] 1%nat (init_locals 0) eq_refl eq_refl eq_refl).
Defined.

(** ** The command line *)

Lemma set_location_false_unchanged geo m z :
  fst (set_location geo m z) = false -> snd (set_location geo m z) = m.
Proof.
  unfold set_location.
  destruct (location <- match geo z with
                        | Returned r => Ok r
                        | Failed e => Raise e
                        end;;
            _ <- (if negb (status_code location =? OK)
                  then Raise BadResponse else Ok ());;
            body <- json_of location;;
            la <- getitem body "lat";;
            body' <- json_of location;;
            lo <- getitem body' "lon";; Ok (la, lo)) as [[la lo]|e]; simpl;
    [discriminate|reflexivity].
Qed.

Lemma set_location_keeps_settings geo m z :
  semaphores (snd (set_location geo m z)) = semaphores m /\
  threshold (snd (set_location geo m z)) = threshold m /\
  slo (snd (set_location geo m z)) = slo m /\
  count (snd (set_location geo m z)) = count m.
Proof.
  unfold set_location.
  destruct (location <- match geo z with
                        | Returned r => Ok r
                        | Failed e => Raise e
                        end;;
            _ <- (if negb (status_code location =? OK)
                  then Raise BadResponse else Ok ());;
            body <- json_of location;;
            la <- getitem body "lat";;
            body' <- json_of location;;
            lo <- getitem body' "lon";; Ok (la, lo)) as [[la lo]|e]; simpl;
    auto.
Qed.

Section CommandLine.

Variable to_int : string -> option Z.
Variable to_float : string -> option Q.
Variable geo : Z -> Poll.
Variable weather : json -> json -> Poll.
Variable t0 : nat -> Q.

Local Abbreviation init := (Cli.init to_int to_float).
Local Abbreviation configure := (Cli.configure to_int to_float geo).
Local Abbreviation setup := (Cli.setup to_int to_float geo).
Local Abbreviation parse_cmdline :=
  (Cli.parse_cmdline to_int to_float geo weather t0).

(** X10: [--once] is looked at first.  With it the one-shot check runs and
    [parse_cmdline] never starts the polling tasks, whether [--forever] is
    given as well or not. *)
Theorem once_decides_before_forever env o b :
  Cli.once o = true ->
  parse_cmdline env (Cli.with_forever o b) = parse_cmdline env o /\
  (forall s, parse_cmdline env o <> Cli.RunsForever s).
Proof.
  intros Honce. unfold Cli.parse_cmdline.
  change (Cli.setup to_int to_float geo env (Cli.with_forever o b))
    with (Cli.setup to_int to_float geo env o).
  change (Cli.once (Cli.with_forever o b)) with (Cli.once o).
  rewrite Honce. split; [reflexivity|].
  intros s. destruct (Cli.setup to_int to_float geo env o) as [mon|e];
    [|discriminate].
  destruct (get_blocking_weather mon _) as [[b' ns]|e]; discriminate.
Qed.

Lemma configure_unset_semaphores mon o mon' :
  Cli.concurrency o = Cli.Unset ->
  configure mon o = Cli.Fine mon' -> semaphores mon' = 2.
Proof.
  intros Hc. unfold Cli.configure. rewrite Hc.
  destruct (match Cli.zip o with
            | Some s => _
            | None => _
            end) as [m1|e]; simpl; [|discriminate].
  destruct (match Cli.threshold o with
            | Some s => _
            | None => _
            end) as [m2|e]; simpl; [|discriminate].
  intros H. injection H as <-. reflexivity.
Qed.

(** X11: the command line's default beats the environment.  When
    [--concurrency] is not given, [options.concurrency] is the integer 2,
    which is true, so line 339 overwrites whatever [SEMAPHORES] had set:
    the monitor, the semaphore and the number of tasks are 2. *)
Theorem default_concurrency_overrides_env env o :
  Cli.concurrency o = Cli.Unset ->
  (forall s, parse_cmdline env o = Cli.RunsForever s ->
     semaphores (self s) = 2 /\ permits s = 2 /\
     length (tasks s) = 2%nat) /\
  (forall mon ns, parse_cmdline env o = Cli.Returns mon ns ->
     semaphores mon = 2).
Proof.
  intros Hc. unfold Cli.parse_cmdline, Cli.setup.
  destruct (Cli.init to_int to_float env) as [mon0|e]; simpl;
    [|split; intros; discriminate].
  destruct (Cli.configure to_int to_float geo mon0 o) as [mon|e] eqn:Hcfg;
    [|split; intros; discriminate].
  pose proof (configure_unset_semaphores mon0 o mon Hc Hcfg) as H2.
  destruct (Cli.once o).
  - destruct (get_blocking_weather mon _) as [[b' ns]|e]; split;
      intros; try discriminate.
    match goal with H : Cli.Returns _ _ = _ |- _ => injection H as <- _ end.
    exact H2.
  - destruct (Cli.forever o).
    + unfold boot. rewrite H2. simpl. split; intros; try discriminate.
      match goal with H : Cli.RunsForever _ = _ |- _ =>
        injection H as <- end.
      simpl. auto.
    + split; intros; try discriminate.
      match goal with H : Cli.Returns _ _ = _ |- _ => injection H as <- _ end.
      exact H2.
Qed.

Lemma configure_crash_is_value_error mon o e :
  configure mon o = Cli.Crash e -> e = Cli.ValueError.
Proof.
  unfold Cli.configure, Cli.convert.
  destruct (Cli.zip o) as [sz|]; [destruct (Cli.truthy sz)|];
    simpl; try (destruct (to_int sz)); simpl; try congruence;
    (destruct (Cli.threshold o) as [st|]; [destruct (Cli.truthy st)|];
     simpl; try (destruct (to_float st)); simpl; try congruence;
     (destruct (Cli.concurrency o) as [|sc]; [|destruct (Cli.truthy sc)];
      simpl; try (destruct (to_int sc)); simpl; congruence)).
Qed.

Lemma init_crash_is_value_error env e :
  init env = Cli.Crash e -> e = Cli.ValueError.
Proof.
  unfold Cli.init, Cli.convert.
  destruct (Cli.THRESHOLD_TEMP env) as [s1|]; simpl;
    try (destruct (to_float s1)); simpl; try congruence;
    (destruct (Cli.SLO_TEMP env) as [s2|]; simpl;
     try (destruct (to_int s2)); simpl; try congruence;
     (destruct (Cli.SEMAPHORES env) as [s3|]; simpl;
      try (destruct (to_int s3)); simpl; congruence)).
Qed.

Lemma setup_bad_value env o :
  (exists s, Cli.THRESHOLD_TEMP env = Some s /\ to_float s = None) \/
  (exists s, Cli.SLO_TEMP env = Some s /\ to_int s = None) \/
  (exists s, Cli.SEMAPHORES env = Some s /\ to_int s = None) \/
  (exists s, Cli.zip o = Some s /\ Cli.truthy s = true /\
             to_int s = None) \/
  (exists s, Cli.threshold o = Some s /\ Cli.truthy s = true /\
             to_float s = None) \/
  (exists s, Cli.concurrency o = Cli.Given s /\ Cli.truthy s = true /\
             to_int s = None) ->
  setup env o = Cli.Crash Cli.ValueError.
Proof.
  intros Hbad.
  assert (Hnot : forall mon, setup env o <> Cli.Fine mon).
  { unfold Cli.setup, Cli.init, Cli.configure, Cli.convert. intros mon.
    destruct Hbad as [(s & E & C)|[(s & E & C)|[(s & E & C)|
                     [(s & E & T & C)|[(s & E & T & C)|(s & E & T & C)]]]]];
      rewrite E, ?T, ?C; simpl; try discriminate;
      repeat match goal with
        | |- context [match ?x with _ => _ end] =>
            destruct x; simpl; try discriminate
        end. }
  destruct (setup env o) as [mon|e] eqn:Hs; [destruct (Hnot mon eq_refl)|].
  f_equal. unfold Cli.setup in Hs.
  destruct (init env) as [mon0|e0] eqn:Hi; simpl in Hs.
  - eapply configure_crash_is_value_error, Hs.
  - injection Hs as <-. eapply init_crash_is_value_error, Hi.
Qed.

(** X12: a value that [int] or [float] refuses ends [parse_cmdline] with
    [ValueError], whichever of the three environment variables or of the
    non-empty [--zip], [--threshold] and [--concurrency] strings it is:
    the conversions are outside every [try], and the weather is requested
    in neither mode. *)
Theorem unconvertible_value_aborts env o :
  (exists s, Cli.THRESHOLD_TEMP env = Some s /\ to_float s = None) \/
  (exists s, Cli.SLO_TEMP env = Some s /\ to_int s = None) \/
  (exists s, Cli.SEMAPHORES env = Some s /\ to_int s = None) \/
  (exists s, Cli.zip o = Some s /\ Cli.truthy s = true /\
             to_int s = None) \/
  (exists s, Cli.threshold o = Some s /\ Cli.truthy s = true /\
             to_float s = None) \/
  (exists s, Cli.concurrency o = Cli.Given s /\ Cli.truthy s = true /\
             to_int s = None) ->
  parse_cmdline env o = Cli.Crashed Cli.ValueError.
Proof.
  intros Hbad. unfold Cli.parse_cmdline.
  rewrite (setup_bad_value env o Hbad). reflexivity.
Qed.

(** X13: a failed geolocation lookup changes nothing.  When
    [set_location] returns [False] for the given zip code, [parse_cmdline]
    goes on exactly as if [--zip] had not been given, with the coordinates
    of [__init__]. *)
Theorem failed_lookup_is_ignored env o mon0 s z :
  init env = Cli.Fine mon0 ->
  Cli.zip o = Some s -> to_int s = Some z ->
  fst (set_location geo mon0 z) = false ->
  parse_cmdline env o = parse_cmdline env (Cli.without_zip o).
Proof.
  intros Hi Hz Hc Hf. unfold Cli.parse_cmdline.
  assert (Hs : setup env o = setup env (Cli.without_zip o)).
  { unfold Cli.setup. rewrite Hi. simpl. unfold Cli.configure.
    rewrite Hz. simpl. unfold Cli.convert. rewrite Hc. simpl.
    rewrite (set_location_false_unchanged geo mon0 z Hf).
    destruct (Cli.truthy s); reflexivity. }
  rewrite Hs. reflexivity.
Qed.

(** X14: the size of the pool at the start of the long-running mode.  A
    negative [semaphores] is refused by [asyncio.Semaphore] and ends
    [parse_cmdline] with [ValueError]; with 0 the event loop runs without
    any task, so no event is ever enabled; otherwise the system starts with
    [semaphores] permits and as many tasks. *)
Theorem pool_size_at_start env o mon :
  setup env o = Cli.Fine mon ->
  Cli.once o = false -> Cli.forever o = true ->
  (semaphores mon < 0 -> parse_cmdline env o = Cli.Crashed Cli.ValueError) /\
  (0 <= semaphores mon ->
   exists sys,
     parse_cmdline env o = Cli.RunsForever sys /\
     self sys = mon /\ permits sys = semaphores mon /\
     Z.of_nat (length (tasks sys)) = semaphores mon /\
     Forall (fun t => pc t = AtAcquire /\ idle (locals t)) (tasks sys) /\
     (semaphores mon = 0 -> forall ev, step sys ev = None)).
Proof.
  intros Hs Honce Hfor. unfold Cli.parse_cmdline.
  rewrite Hs, Honce, Hfor. unfold boot. split.
  - intros Hneg. apply Z.ltb_lt in Hneg. rewrite Hneg. reflexivity.
  - intros Hpos. pose proof Hpos as Hge. apply Z.ltb_ge in Hge.
    rewrite Hge. eexists. split; [reflexivity|]. simpl.
    repeat split.
    + rewrite length_map, length_seq. lia.
    + apply Forall_forall. intros t Ht.
      apply list_elem_of_fmap in Ht. destruct Ht as (num & -> & _).
      repeat split.
    + intros H0 ev. rewrite H0. simpl.
      destruct ev; reflexivity.
Qed.

Lemma configure_settings mon o mon' :
  configure mon o = Cli.Fine mon' ->
  count mon' = count mon /\ slo mon' = slo mon /\
  match Cli.threshold o with
  | Some s =>
      if Cli.truthy s then to_float s = Some (threshold mon')
      else threshold mon' = threshold mon
  | None => threshold mon' = threshold mon
  end /\
  match Cli.concurrency o with
  | Cli.Unset => semaphores mon' = 2
  | Cli.Given s =>
      if Cli.truthy s then to_int s = Some (semaphores mon')
      else semaphores mon' = semaphores mon
  end.
Proof.
  unfold Cli.configure, Cli.convert.
  assert (Hz : exists m1,
            match Cli.zip o with
            | Some s =>
                if Cli.truthy s
                then Cli.and_then
                       match to_int s with
                       | Some v => Cli.Fine v
                       | None => Cli.Crash Cli.ValueError
                       end
                       (fun z => Cli.Fine (snd (set_location geo mon z)))
                else Cli.Fine mon
            | None => Cli.Fine mon
            end = Cli.Fine m1 /\
            count m1 = count mon /\ slo m1 = slo mon /\
            threshold m1 = threshold mon /\
            semaphores m1 = semaphores mon \/
            match Cli.zip o with
            | Some s =>
                if Cli.truthy s
                then Cli.and_then
                       match to_int s with
                       | Some v => Cli.Fine v
                       | None => Cli.Crash Cli.ValueError
                       end
                       (fun z => Cli.Fine (snd (set_location geo mon z)))
                else Cli.Fine mon
            | None => Cli.Fine mon
            end = Cli.Crash Cli.ValueError).
  { destruct (Cli.zip o) as [sz|]; [destruct (Cli.truthy sz)|];
      try (exists mon; left; repeat split; reflexivity).
    destruct (to_int sz) as [zv|]; simpl.
    - exists (snd (set_location geo mon zv)). left.
      destruct (set_location_keeps_settings geo mon zv) as (K1 & K2 & K3 & K4).
      repeat split; auto.
    - exists mon. right. reflexivity. }
  destruct Hz as [m1 [(-> & C1 & C2 & C3 & C4) | ->]]; simpl; [|discriminate].
  destruct (Cli.threshold o) as [st|]; [destruct (Cli.truthy st)|]; simpl;
    try (destruct (to_float st) eqn:E4; simpl; [|discriminate]);
    (destruct (Cli.concurrency o) as [|sc]; [|destruct (Cli.truthy sc)];
     simpl; try (destruct (to_int sc) eqn:E5; simpl; [|discriminate]);
     intros H; injection H as <-; simpl; repeat split; auto).
Qed.

Lemma init_settings env mon :
  init env = Cli.Fine mon ->
  count mon = 0 /\
  match Cli.SLO_TEMP env with
  | Some s => to_int s = Some (slo mon)
  | None => slo mon = 300
  end /\
  match Cli.THRESHOLD_TEMP env with
  | Some s => to_float s = Some (threshold mon)
  | None => threshold mon = 90%Q
  end /\
  match Cli.SEMAPHORES env with
  | Some s => to_int s = Some (semaphores mon)
  | None => semaphores mon = 2
  end.
Proof.
  unfold Cli.init, Cli.convert.
  destruct (Cli.THRESHOLD_TEMP env) as [e1|]; simpl;
    try (destruct (to_float e1) eqn:E1; simpl; [|discriminate]);
    (destruct (Cli.SLO_TEMP env) as [e2|]; simpl;
     try (destruct (to_int e2) eqn:E2; simpl; [|discriminate]);
     (destruct (Cli.SEMAPHORES env) as [e3|]; simpl;
      try (destruct (to_int e3) eqn:E3; simpl; [|discriminate]);
      intros H; injection H as <-; simpl; repeat split; auto)).
Qed.

(** X15: where each setting comes from.  When no conversion fails, the
    counter starts at 0; [slo] is [SLO_TEMP] or 300; [threshold] is the
    non-empty [--threshold], else [THRESHOLD_TEMP], else 90; [semaphores] is
    the non-empty [--concurrency], 2 when the option is not given, and
    [SEMAPHORES] (or 2) only for an empty [--concurrency]. *)
Theorem setup_settings env o mon :
  setup env o = Cli.Fine mon ->
  count mon = 0 /\
  match Cli.SLO_TEMP env with
  | Some s => to_int s = Some (slo mon)
  | None => slo mon = 300
  end /\
  match Cli.threshold o, Cli.THRESHOLD_TEMP env with
  | Some s, Some s' =>
      if Cli.truthy s then to_float s = Some (threshold mon)
      else to_float s' = Some (threshold mon)
  | Some s, None =>
      if Cli.truthy s then to_float s = Some (threshold mon)
      else threshold mon = 90%Q
  | None, Some s' => to_float s' = Some (threshold mon)
  | None, None => threshold mon = 90%Q
  end /\
  match Cli.concurrency o, Cli.SEMAPHORES env with
  | Cli.Unset, _ => semaphores mon = 2
  | Cli.Given s, Some s' =>
      if Cli.truthy s then to_int s = Some (semaphores mon)
      else to_int s' = Some (semaphores mon)
  | Cli.Given s, None =>
      if Cli.truthy s then to_int s = Some (semaphores mon)
      else semaphores mon = 2
  end.
Proof.
  unfold Cli.setup. destruct (init env) as [mon0|e] eqn:Hi; simpl;
    [|discriminate].
  intros Hc. destruct (init_settings env mon0 Hi) as (I1 & I2 & I3 & I4).
  destruct (configure_settings mon0 o mon Hc) as (C1 & C2 & C3 & C4).
  split; [congruence|]. split.
  - destruct (Cli.SLO_TEMP env); congruence.
  - split.
    + destruct (Cli.threshold o) as [st|], (Cli.THRESHOLD_TEMP env);
        try destruct (Cli.truthy st); congruence.
    + destruct (Cli.concurrency o) as [|sc], (Cli.SEMAPHORES env);
        try destruct (Cli.truthy sc); congruence.
Qed.

End CommandLine.

Lemma once_decides_before_forever_witness :
  let o := {| Cli.verbose := false; Cli.zip := None;
              Cli.concurrency := Cli.Unset; Cli.threshold := None;
              Cli.once := true; Cli.forever := false |} in
  Cli.parse_cmdline (fun _ => None) (fun _ => None)
    (fun _ => Failed TransportError) (fun _ _ => Failed TimeoutException)
    (fun _ => 0%Q) (Cli.mkEnv None None None) (Cli.with_forever o true) =
  Cli.parse_cmdline (fun _ => None) (fun _ => None)
    (fun _ => Failed TransportError) (fun _ _ => Failed TimeoutException)
    (fun _ => 0%Q) (Cli.mkEnv None None None) o.
Proof.
  cbv zeta.
  apply (proj1 (once_decides_before_forever (fun _ => None) (fun _ => None)
                  (fun _ => Failed TransportError)
                  (fun _ _ => Failed TimeoutException) (fun _ => 0%Q)
                  (Cli.mkEnv None None None)
                  {| Cli.verbose := false; Cli.zip := None;
                     Cli.concurrency := Cli.Unset; Cli.threshold := None;
                     Cli.once := true; Cli.forever := false |}
                  true eq_refl)).
Defined.

Lemma default_concurrency_overrides_env_witness :
  permits {| self := init_monitor; permits := 2;
             tasks := [{| pc := AtAcquire; locals := init_locals 0 |};
                       {| pc := AtAcquire; locals := init_locals 0 |}] |} = 2.
Proof.
  apply (proj1 (default_concurrency_overrides_env
                  (fun _ => Some 8) (fun _ => None)
                  (fun _ => Failed TransportError)
                  (fun _ _ => Failed TimeoutException) (fun _ => 0%Q)
                  (Cli.mkEnv None None (Some "8"%string))
                  {| Cli.verbose := false; Cli.zip := None;
                     Cli.concurrency := Cli.Unset; Cli.threshold := None;
                     Cli.once := false; Cli.forever := true |}
                  eq_refl)
           {| self := init_monitor; permits := 2;
              tasks := [{| pc := AtAcquire; locals := init_locals 0 |};
                        {| pc := AtAcquire; locals := init_locals 0 |}] |}
           eq_refl).
Defined.

Lemma unconvertible_value_aborts_witness :
  Cli.parse_cmdline (fun _ => None) (fun _ => None)
    (fun _ => Failed TransportError) (fun _ _ => Failed TimeoutException)
    (fun _ => 0%Q) (Cli.mkEnv None None None)
    {| Cli.verbose := false; Cli.zip := Some "fail"%string;
       Cli.concurrency := Cli.Unset; Cli.threshold := None;
       Cli.once := false; Cli.forever := true |}
  = Cli.Crashed Cli.ValueError.
Proof.
  apply (unconvertible_value_aborts (fun _ => None) (fun _ => None)
           (fun _ => Failed TransportError)
           (fun _ _ => Failed TimeoutException) (fun _ => 0%Q)).
  right. right. right. left. exists "fail"%string. repeat split.
Defined.

Lemma failed_lookup_is_ignored_witness :
  let o := {| Cli.verbose := false; Cli.zip := Some "11385"%string;
              Cli.concurrency := Cli.Unset; Cli.threshold := None;
              Cli.once := false; Cli.forever := true |} in
  Cli.parse_cmdline (fun _ => Some 11385) (fun _ => None)
    (fun _ => Failed TransportError) (fun _ _ => Failed TimeoutException)
    (fun _ => 0%Q) (Cli.mkEnv None None None) o =
  Cli.parse_cmdline (fun _ => Some 11385) (fun _ => None)
    (fun _ => Failed TransportError) (fun _ _ => Failed TimeoutException)
    (fun _ => 0%Q) (Cli.mkEnv None None None) (Cli.without_zip o).
Proof.
  cbv zeta.
  apply (failed_lookup_is_ignored (fun _ => Some 11385) (fun _ => None)
           (fun _ => Failed TransportError)
           (fun _ _ => Failed TimeoutException) (fun _ => 0%Q)
           (Cli.mkEnv None None None)
           {| Cli.verbose := false; Cli.zip := Some "11385"%string;
              Cli.concurrency := Cli.Unset; Cli.threshold := None;
              Cli.once := false; Cli.forever := true |}
           init_monitor "11385"%string 11385
           eq_refl eq_refl eq_refl eq_refl).
Defined.

Lemma pool_size_at_start_witness :
  Cli.parse_cmdline (fun _ => Some (-1)) (fun _ => None)
    (fun _ => Failed TransportError) (fun _ _ => Failed TimeoutException)
    (fun _ => 0%Q) (Cli.mkEnv None None None)
    {| Cli.verbose := false; Cli.zip := None;
       Cli.concurrency := Cli.Given "-1"; Cli.threshold := None;
       Cli.once := false; Cli.forever := true |}
  = Cli.Crashed Cli.ValueError.
Proof.
  apply (proj1 (pool_size_at_start (fun _ => Some (-1)) (fun _ => None)
                  (fun _ => Failed TransportError)
                  (fun _ _ => Failed TimeoutException) (fun _ => 0%Q)
                  (Cli.mkEnv None None None)
                  {| Cli.verbose := false; Cli.zip := None;
                     Cli.concurrency := Cli.Given "-1";
                     Cli.threshold := None;
                     Cli.once := false; Cli.forever := true |}
                  (Cli.set_semaphores init_monitor (-1))
                  eq_refl eq_refl eq_refl)).
  reflexivity.
Defined.

Lemma setup_settings_witness :
  Some 120 = Some (slo {| threshold := 85; slo := 120;
                          lon := lon init_monitor; lat := lat init_monitor;
                          semaphores := 2; count := 0 |}).
Proof.
  apply (proj1 (proj2 (setup_settings
                         (fun _ => Some 120) (fun _ => Some 85%Q)
                         (fun _ => Failed TransportError)
                         (Cli.mkEnv None (Some "120"%string) None)
                         {| Cli.verbose := false; Cli.zip := None;
                            Cli.concurrency := Cli.Unset;
                            Cli.threshold := Some "85"%string;
                            Cli.once := false; Cli.forever := true |}
                         _ eq_refl))).
Defined.

(** ** The counter, up and down *)

(** X16: [counter(subtract=True)] undoes [counter()], and it saturates: at
    0 it leaves the monitor as it is, so that from a counter that is not
    negative it yields [max(0, count - 1)]. *)
Theorem counter_undo_and_floor m :
  0 <= count m ->
  counter (counter m false) true = m /\
  (count m = 0 -> counter m true = m) /\
  count (counter m true) = Z.max 0 (count m - 1).
Proof.
  intros H. unfold counter. simpl. split; [|split].
  - destruct (Z.gtb_spec (count m + 1) 0) as [_|Hle]; [|lia].
    unfold set_count. simpl. replace (count m + 1 - 1) with (count m) by lia.
    destruct m; reflexivity.
  - intros ->. reflexivity.
  - destruct (Z.gtb_spec (count m) 0); simpl; lia.
Qed.

Lemma counter_undo_and_floor_witness :
  counter (counter (set_count init_monitor 7) false) true =
  set_count init_monitor 7.
Proof.
  apply (proj1 (counter_undo_and_floor (set_count init_monitor 7)
                  ltac:(simpl; lia))).
Defined.

(** ** Looking the location up twice *)

(** X17: [set_location] writes [lat] and [lon] only and is idempotent: with
    the same answer of the geocoding service a second call returns the same
    value and leaves the monitor as the first call left it. *)
Theorem set_location_idempotent geo m z :
  set_location geo (snd (set_location geo m z)) z =
  (fst (set_location geo m z), snd (set_location geo m z)) /\
  threshold (snd (set_location geo m z)) = threshold m /\
  slo (snd (set_location geo m z)) = slo m /\
  semaphores (snd (set_location geo m z)) = semaphores m /\
  count (snd (set_location geo m z)) = count m.
Proof.
  split.
  - unfold set_location.
    destruct (location <- match geo z with
                          | Returned r => Ok r
                          | Failed e => Raise e
                          end;;
              _ <- (if negb (status_code location =? OK)
                    then Raise BadResponse else Ok ());;
              body <- json_of location;;
              la <- getitem body "lat";;
              body' <- json_of location;;
              lo <- getitem body' "lon";; Ok (la, lo)) as [[la lo]|e];
      reflexivity.
  - destruct (set_location_keeps_settings geo m z) as (K1 & K2 & K3 & K4).
    auto.
Qed.

(** ** Notifications need an open window *)

(** X18: a message is only ever sent from an open window: a breach message
    by a task that was already warning, a clear message by a task that was
    already clearing.  The sample that opens a window, and every sample to a
    task that is neither warning nor clearing, sends nothing. *)
Theorem notification_needs_open_window m l temp now :
  (forall n, In n (snd (evaluate m l temp now)) ->
     (severity n = Breach -> warning l = true) /\
     (severity n = Clear -> clearing l = true) /\
     start (snd (fst (evaluate m l temp now))) = start l) /\
  (warning l = false -> clearing l = false ->
   snd (evaluate m l temp now) = []) /\
  (start (snd (fst (evaluate m l temp now))) = now ->
   start l <> now -> snd (evaluate m l temp now) = []).
Proof.
  split; [|split].
  - intros n. unfold evaluate.
    destruct (Qgtb temp (threshold m)), (warning l), (clearing l),
      (fired l); simpl; try (intros []);
      destruct (slo_elapsed (counter m false) l now); simpl;
      try (intros []);
      destruct (dense (counter m false)); simpl; try (intros []);
      try contradiction; try subst n; simpl; repeat split; congruence.
  - intros Hw Hc. unfold evaluate. rewrite Hw, Hc. simpl.
    destruct (Qgtb temp (threshold m)), (fired l); reflexivity.
  - unfold evaluate.
    destruct (Qgtb temp (threshold m)), (warning l), (clearing l),
      (fired l); simpl; try reflexivity;
      destruct (slo_elapsed (counter m false) l now); simpl;
      try reflexivity;
      destruct (dense (counter m false)); simpl; try reflexivity;
      congruence.
Qed.

Lemma notification_needs_open_window_witness :
  snd (evaluate (set_count init_monitor 100)
         {| start := 0; warning := false; clearing := false;
            fired := true |} 120 1000) = [].
Proof.
  apply (proj1 (proj2 (notification_needs_open_window
                         (set_count init_monitor 100)
                         {| start := 0; warning := false; clearing := false;
                            fired := true |} 120%Q 1000%Q)));
    reflexivity.
Defined.

(** ** Every message ever sent *)

Lemma evaluate_note_limits m l temp now n :
  In n (snd (evaluate m l temp now)) -> above_floor m n.
Proof.
  unfold evaluate, above_floor.
  destruct (Qgtb temp (threshold m)), (warning l), (clearing l),
    (fired l); simpl; try (intros []);
    destruct (slo_elapsed (counter m false) l now) eqn:He; simpl;
    try (intros []);
    destruct (dense (counter m false)) eqn:Hd; simpl; try (intros []);
    try contradiction; try subst n; simpl;
    apply dense_counter_true in Hd; assumption.
Qed.

Lemma density_floor_frame m m' :
  slo m' = slo m -> semaphores m' = semaphores m ->
  density_floor m' = density_floor m.
Proof.
  intros Hs Hp. unfold density_floor, float_floor. rewrite Hs, Hp.
  reflexivity.
Qed.

Lemma above_floor_transfer m m' n :
  set_count m' (count m) = m -> above_floor m' n -> above_floor m n.
Proof.
  intros H. destruct (frame_fields m m' H) as (_ & Hs & Hp & _).
  unfold above_floor. rewrite (density_floor_frame m m' Hs Hp). auto.
Qed.

Lemma fleet_apply_note_limits st op n :
  In n (snd (Fleet.apply st op)) -> above_floor (Fleet.self st) n.
Proof.
  destruct op as [subtract|num temp now]; simpl; [intros []|].
  destruct (Fleet.tasks st !! num) as [l|]; [|intros []].
  pose proof (evaluate_note_limits (Fleet.self st) l temp now n) as H.
  destruct (evaluate (Fleet.self st) l temp now) as [[m' l'] notes].
  exact H.
Qed.

Lemma fleet_run_note_limits ops : forall st n,
  In n (snd (Fleet.run st ops)) -> above_floor (Fleet.self st) n.
Proof.
  induction ops as [|op ops IH]; intros st n; simpl; [intros []|].
  pose proof (fleet_apply_note_limits st op n) as H1.
  pose proof (fleet_apply_frame st op) as Hf.
  destruct (Fleet.apply st op) as [st1 n1]. simpl in H1, Hf.
  specialize (IH st1 n). destruct (Fleet.run st1 ops) as [st2 n2].
  simpl in *. intros Hin. apply in_app_or in Hin. destruct Hin as [Hin|Hin].
  - apply H1, Hin.
  - eapply above_floor_transfer; [exact Hf|]. apply IH, Hin.
Qed.

Lemma run_note_limits evs : forall s s' notes n,
  run s evs = Some (s', notes) -> In n notes -> above_floor (self s) n.
Proof.
  induction evs as [|ev evs IH]; intros s s' notes n Hrun Hin;
    simpl in Hrun.
  - injection Hrun as _ <-. destruct Hin.
  - destruct (step s ev) as [[s1 n1]|] eqn:Hstep; [|discriminate].
    destruct (run s1 evs) as [[s2 n2]|] eqn:Hrest; [|discriminate].
    injection Hrun as _ <-. apply in_app_or in Hin.
    destruct (step_refines_fleet s ev s1 n1 Hstep)
      as [[Heq ->]|(num & temp & now & Happ)].
    + destruct Hin as [[]|Hin].
      pose proof (IH _ _ _ _ Hrest Hin) as H.
      change (self s1) with (Fleet.self (fleet_of s1)) in H.
      rewrite Heq in H. exact H.
    + destruct Hin as [Hin|Hin].
      * pose proof (fleet_apply_note_limits (fleet_of s)
                      (Fleet.Sample num temp now) n) as H.
        rewrite Happ in H. apply H, Hin.
      * pose proof (fleet_apply_frame (fleet_of s)
                      (Fleet.Sample num temp now)) as Hf.
        rewrite Happ in Hf. simpl in Hf.
        eapply above_floor_transfer; [exact Hf|].
        apply (IH _ _ _ _ Hrest Hin).
Qed.

(** X19: no message is ever sent on too few samples.  Every message sent
    along any sequence of evaluations, or along any run of the system,
    reports a count above the density floor
    [(semaphores * (slo / 10)) - 1], as binary64 gives it, of the monitor
    the run started with. *)
Theorem every_message_is_above_floor :
  (forall st ops n,
     In n (snd (Fleet.run st ops)) -> above_floor (Fleet.self st) n) /\
  (forall s evs s' notes n,
     run s evs = Some (s', notes) -> In n notes -> above_floor (self s) n).
Proof.
  split.
  - intros st ops n. apply fleet_run_note_limits.
  - exact (fun s evs => run_note_limits evs s).
Qed.

Lemma every_message_is_above_floor_witness :
  above_floor {| threshold := 90; slo := 82; lon := JNull; lat := JNull;
                 semaphores := 15; count := 120 |}
              (mkNote Breach 122 95).
Proof.
  apply (proj1 every_message_is_above_floor
           {| Fleet.self := {| threshold := 90; slo := 82; lon := JNull;
                               lat := JNull; semaphores := 15;
                               count := 120 |};
              Fleet.tasks := [{| start := 0; warning := true;
                                 clearing := false; fired := false |}] |}
           [Fleet.Sample 0 93 50; Fleet.Sample 0 95 100]).
  left. reflexivity.
Defined.

(** ** Logging *)

(** X20: [msg] makes exactly one call to the logger and never changes its
    level; it returns [False] exactly for an empty message, for which the
    one call is [logger.error("Empty log message")].  A message marked [debug] is logged at
    level DEBUG only when the logger's level is 10, as it is after
    [set_debug] and stays from then on, and at level INFO otherwise.
    [notify] returns [True] whatever text it is given. *)
Theorem msg_logs_once lg func_name data debug :
  length (Log.records (snd (Log.msg lg func_name data debug))) =
    S (length (Log.records lg)) /\
  Log.level (snd (Log.msg lg func_name data debug)) = Log.level lg /\
  (fst (Log.msg lg func_name data debug) = false <-> data = ""%string) /\
  (data = ""%string ->
   Log.records (snd (Log.msg lg func_name data debug)) =
   Log.records lg ++ [(Log.ERROR, "Empty log message"%string)]) /\
  Log.level (snd (Log.set_debug lg)) = 10 /\
  fst (Log.set_debug lg) = true /\
  fst (Log.notify lg data) = true /\
  (data <> ""%string ->
   exists text,
     Log.records (snd (Log.msg lg func_name data debug)) =
     Log.records lg ++
       [(if (Log.level lg =? 10) && debug then Log.DEBUG else Log.INFO,
         text)] /\
     text = String.append "monitor_dc_temp.py|"
              (String.append func_name (String.append ": " data))).
Proof.
  unfold Log.msg, Log.set_debug, Log.notify.
  destruct (String.eqb_spec data "") as [->|Hne]; simpl.
  - rewrite length_app. simpl. repeat split; auto; try lia.
    intros H. contradiction.
  - destruct ((Log.level lg =? 10) && debug); simpl;
      rewrite length_app; simpl; repeat split; auto; try lia;
      try discriminate; try contradiction;
      intros _; eexists; split; reflexivity.
Qed.

Lemma msg_logs_once_witness :
  Log.records (snd (Log.msg Log.fresh "notify" "" false)) =
    Log.records Log.fresh ++ [(Log.ERROR, "Empty log message"%string)] /\
  exists text,
    Log.records (snd (Log.msg (snd (Log.set_debug Log.fresh))
                        "get_blocking_weather" "Bad response" true)) =
    Log.records (snd (Log.set_debug Log.fresh)) ++ [(Log.DEBUG, text)] /\
    text = String.append "monitor_dc_temp.py|"
             (String.append "get_blocking_weather"
                (String.append ": " "Bad response")).
Proof.
  split.
  - apply (proj1 (proj2 (proj2 (proj2
             (msg_logs_once Log.fresh "notify" "" false))))).
    reflexivity.
  - apply (proj2 (proj2 (proj2 (proj2 (proj2 (proj2 (proj2
             (msg_logs_once (snd (Log.set_debug Log.fresh))
                "get_blocking_weather" "Bad response" true)))))))).
    discriminate.
Defined.
